(** * sg.data.sintef.eb_userloads: the lazy user-load cache and its aggregates

    A shallow embedding of [eb_userloads.py]: the class [UserLoads] (a
    dict-style, late-loading view on an HDF5 store of per-user load series)
    and the module-level aggregation functions built on it.

    pandas, PyTables and numpy are outside the module.  What the module
    relies on is modelled as follows.
    - A [DataFrame] is a window on a block of rows held in a heap.  Slicing
      by label returns a new window on the same block (no rows are copied),
      [copy] allocates a new block, and the augmented assignment [+=] writes
      into the block of its receiver, which keeps its index: the other
      operand is aligned on the labels of the receiver.
    - The rows carry readings of an arbitrary type [V] with an addition and
      a division by a count ([Numeric]); integers and binary64 numbers are
      instances, and no law of arithmetic is assumed of the addition.
    - The HDF5 store is a record of its nodes; every lookup of the table of
      a user is logged, so that the number of reads an operation makes can
      be stated.
    - numpy's generators are parameters ([NumPy]). *)

From Stdlib Require Import ZArith Lia.
From Stdlib Require PrimFloat.
From stdpp Require Import base option list gmap sets.

Local Open Scope Z_scope.

(** ** Exceptions and the state-and-exception monad *)

Inductive Exception :=
  | KeyError | IndexError | AttributeError | ValueError | IOError
  | ClosedFileError.

Inductive Result (A : Type) :=
  | Ok (a : A)
  | Raise (e : Exception).
Arguments Ok {A} a.
Arguments Raise {A} e.

(** A Python computation over a state [S]: an exception leaves the state as
    it was when it was raised (nothing is rolled back). *)
Definition Py (S A : Type) : Type := S → Result A * S.

Definition ret {S A} (a : A) : Py S A := λ s, (Ok a, s).
Definition raise {S A} (e : Exception) : Py S A := λ s, (Raise e, s).
Definition bind {S A B} (m : Py S A) (k : A → Py S B) : Py S B :=
  λ s, match m s with
       | (Ok a, s') => k a s'
       | (Raise e, s') => (Raise e, s')
       end.
Definition get_state {S} : Py S S := λ s, (Ok s, s).
Definition modify {S} (f : S → S) : Py S unit := λ s, (Ok tt, f s).

Notation "'let!' x ':=' m 'in' k" := (bind m (λ x, k))
  (at level 10, x name, m at level 100, k at level 200).
Notation "m1 '>>' m2" := (bind m1 (λ _, m2))
  (at level 100, m2 at level 200, right associativity).

(** [[f(x) for x in xs]] *)
Fixpoint comprehension {S A B} (f : A → Py S B) (xs : list A) : Py S (list B) :=
  match xs with
  | [] => ret []
  | x :: xs' =>
      let! y := f x in
      let! ys := comprehension f xs' in
      ret (y :: ys)
  end.

(** [for x in xs: body(x)] *)
Fixpoint for_each {S A} (xs : list A) (body : A → Py S unit) : Py S unit :=
  match xs with
  | [] => ret tt
  | x :: xs' => body x >> for_each xs' body
  end.

(** [xs[:n]] on a list: a negative [n] counts from the end. *)
Definition slice_to {A} (n : Z) (xs : list A) : list A :=
  if 0 <=? n then take (Z.to_nat n) xs
  else take (Z.to_nat (Z.of_nat (length xs) + n)) xs.

(** ** Readings, series and frames *)

Class Numeric (V : Type) := {
  vadd : V → V → V;          (* element of [a + b] *)
  vdiv : V → Z → V;          (* element of [a / n], [n] an integer *)
  nan : V;                   (* what alignment puts where a label is missing *)
}.

(** Timestamps are counted in seconds from 1970-01-01 00:00. *)
Abbreviation timestamp := Z (only parsing).

(** The rows of a frame, in index order. *)
Abbreviation TimeSeries V := (list (timestamp * V)) (only parsing).

(** Days from 1970-01-01 to the civil date [y]-[m]-[d]. *)
Definition days_from_civil (y m d : Z) : Z :=
  let y' := if m <=? 2 then y - 1 else y in
  let era := y' / 400 in
  let yoe := y' - era * 400 in
  let mp := (m + 9) mod 12 in
  let doy := (153 * mp + 2) / 5 + d - 1 in
  let doe := yoe * 365 + yoe / 4 - yoe / 100 + doy in
  era * 146097 + doe - 719468.

(** [datetime.datetime.strptime(s, "%Y-%m-%d %H:%M")] on a well-formed [s]. *)
Definition strptime (y m d hh mm : Z) : timestamp :=
  ((days_from_civil y m d * 24 + hh) * 60 + mm) * 60.

Section Model.
Context {V : Type} `{Numeric V}.

(** A frame object: a window [[lower, upper]] (both ends inclusive, either
    may be open) on the block at address [block] of the heap. *)
Record DataFrame := {
  block : nat;
  lower : option timestamp;
  upper : option timestamp;
}.

Definition in_period (lo hi : option timestamp) (t : timestamp) : bool :=
  match lo with Some a => a <=? t | None => true end &&
  match hi with Some b => t <=? b | None => true end.

(** The rows of [s] labelled within [[lo, hi]]: what slicing by label
    keeps of an index in increasing order. *)
Definition restrict (lo hi : option timestamp) (s : TimeSeries V) : TimeSeries V :=
  List.filter (λ r, in_period lo hi r.1) s.

Definition index (s : TimeSeries V) : list timestamp := s.*1.

(** The row of [s] labelled [t]; [nan] when there is none. *)
Fixpoint at_time (t : timestamp) (s : TimeSeries V) : V :=
  match s with
  | [] => nan
  | (t', v) :: s' => if t =? t' then v else at_time t s'
  end.

(** [a + b] aligned on the labels of [a]. *)
Definition add_rows (a b : TimeSeries V) : TimeSeries V :=
  (λ r, (r.1, vadd r.2 (at_time r.1 b))) <$> a.

Definition div_rows (a : TimeSeries V) (n : Z) : TimeSeries V :=
  (λ r, (r.1, vdiv r.2 n)) <$> a.

Definition join_lower (a b : option timestamp) : option timestamp :=
  match a, b with
  | Some x, Some y => Some (Z.max x y)
  | Some x, None => Some x
  | None, _ => b
  end.

Definition join_upper (a b : option timestamp) : option timestamp :=
  match a, b with
  | Some x, Some y => Some (Z.min x y)
  | Some x, None => Some x
  | None, _ => b
  end.

(** [df[lo:hi]]: a window on the same block. *)
Definition df_slice (df : DataFrame) (lo hi : option timestamp) : DataFrame :=
  {| block := block df;
     lower := join_lower (lower df) lo;
     upper := join_upper (upper df) hi |}.

(** ** The HDF5 store *)

(** The nodes of the file that the module reads: the two tables of user
    IDs and one table per user, [id_nodes !! n] standing for the node
    ["id_" + str(n)] ([str] is one-to-one on integers). *)
Record HDFStore := {
  is_open : bool;
  node_user_ids : list Z;
  node_user_ids_cln_pred_exp : list Z;
  id_nodes : gmap Z (TimeSeries V);
}.

Definition close_store (f : HDFStore) : HDFStore :=
  {| is_open := false;
     node_user_ids := node_user_ids f;
     node_user_ids_cln_pred_exp := node_user_ids_cln_pred_exp f;
     id_nodes := id_nodes f |}.

(** ** The state a [UserLoads] object lives in *)

(** The attributes of a [UserLoads] object ([_path], which no method reads
    after [__init__], is left out). *)
Record UserLoads := {
  _store : HDFStore;
  _user_ids : gset Z;
  _loads : gmap Z DataFrame;
}.

(** The object [self] together with the memory of the process: the blocks
    of all frames, and the log of the users looked up in the store. *)
Record State := {
  self : UserLoads;
  heap : list (TimeSeries V);
  store_reads : list Z;
}.

Definition set_store (f : HDFStore → HDFStore) (st : State) : State :=
  {| self := {| _store := f (_store (self st));
                _user_ids := _user_ids (self st);
                _loads := _loads (self st) |};
     heap := heap st; store_reads := store_reads st |}.
Definition set_loads (f : gmap Z DataFrame → gmap Z DataFrame) (st : State) : State :=
  {| self := {| _store := _store (self st);
                _user_ids := _user_ids (self st);
                _loads := f (_loads (self st)) |};
     heap := heap st; store_reads := store_reads st |}.
Definition set_heap (f : list (TimeSeries V) → list (TimeSeries V)) (st : State) : State :=
  {| self := self st; heap := f (heap st); store_reads := store_reads st |}.
Definition log_read (user_id : Z) (st : State) : State :=
  {| self := self st; heap := heap st;
     store_reads := store_reads st ++ [user_id] |}.

(** The rows seen through a frame. *)
Definition rows (h : list (TimeSeries V)) (df : DataFrame) : TimeSeries V :=
  restrict (lower df) (upper df) (default [] (h !! block df)).

(** Allocation of a frame that owns a new block. *)
Definition new_frame (s : TimeSeries V) : Py State DataFrame :=
  λ st, (Ok {| block := length (heap st); lower := None; upper := None |},
         set_heap (λ h, h ++ [s]) st).

(** [df.copy()] *)
Definition df_copy (df : DataFrame) : Py State DataFrame :=
  let! st := get_state in new_frame (rows (heap st) df).

(** [df / n] *)
Definition df_div (df : DataFrame) (n : Z) : Py State DataFrame :=
  let! st := get_state in new_frame (div_rows (rows (heap st) df) n).

(** What [+=] does to the block of its receiver, whose window is
    [[lo, hi]]: the rows in the window take the sums, the others stay. *)
Definition iadd_block (lo hi : option timestamp) (other : TimeSeries V)
    (b : TimeSeries V) : TimeSeries V :=
  (λ r, if in_period lo hi r.1
        then (r.1, vadd r.2 (at_time r.1 other)) else r) <$> b.

(** [total += other]: the rows of [other] are read first, then the block of
    [total] is written. *)
Definition df_iadd (total other : DataFrame) : Py State unit :=
  let! st := get_state in
  modify (set_heap (alter (iadd_block (lower total) (upper total)
                                      (rows (heap st) other))
                          (block total))).

(** [self._store["id_" + str(user_id)]] *)
Definition store_getitem (user_id : Z) : Py State DataFrame :=
  modify (log_read user_id) >>
  let! st := get_state in
  if negb (is_open (_store (self st))) then raise ClosedFileError
  else match id_nodes (_store (self st)) !! user_id with
       | None => raise KeyError
       | Some s => new_frame s
       end.

(** ** class UserLoads *)

(** [UserLoads._load_user_ids] *)
Definition _load_user_ids (f : HDFStore) : gset Z :=
  list_to_set (node_user_ids f).

(** [UserLoads_Experiment._load_user_ids] *)
Definition _load_user_ids_Experiment (f : HDFStore) : gset Z :=
  list_to_set (node_user_ids_cln_pred_exp f).

(** [__init__], given the store that [pd.HDFStore(path, "r")] opened. *)
Definition __init__ (load_user_ids : HDFStore → gset Z) (f : HDFStore) : UserLoads :=
  {| _store := f; _user_ids := load_user_ids f; _loads := ∅ |}.

(** The property [user_ids]: [list(self._user_ids)]. *)
Definition user_ids (ul : UserLoads) : list Z := elements (_user_ids ul).

(** The property [loads]: the dict itself, not a copy. *)
Definition loads (ul : UserLoads) : gmap Z DataFrame := _loads ul.

Definition close : Py State unit := modify (set_store close_store).

Definition read (user_id : Z) : Py State DataFrame :=
  let! st := get_state in
  if negb (bool_decide (user_id ∈ user_ids (self st))) then raise KeyError
  else
    let! user_load := store_getitem user_id in
    modify (set_loads <[user_id := user_load]>) >>
    ret user_load.

Definition read_all : Py State unit :=
  let! st := get_state in
  for_each (user_ids (self st)) (λ user_id, read user_id >> ret tt).

Definition __getitem__ (user_id : Z) : Py State DataFrame :=
  let! st := get_state in
  match _loads (self st) !! user_id with
  | None => read user_id
  | Some user_load => ret user_load
  end.

Definition __setitem__ (user_id : Z) (user_load : DataFrame) : Py State unit :=
  let! st := get_state in
  if negb (bool_decide (user_id ∈ user_ids (self st))) then raise KeyError
  else modify (set_loads <[user_id := user_load]>).

Definition pop (user_id : Z) : Py State DataFrame :=
  let! st := get_state in
  if negb (bool_decide (user_id ∈ user_ids (self st))) then raise KeyError
  else
    (match loads (self st) !! user_id with
     | None => read user_id >> ret tt
     | Some _ => ret tt
     end) >>
    let! st := get_state in
    match _loads (self st) !! user_id with
    | None => raise KeyError
    | Some user_load =>
        modify (set_loads (delete user_id)) >> ret user_load
    end.

(** [self.user_id]: the class has the attributes [_path], [_store],
    [_user_ids], [_loads], the properties [user_ids], [loads], [path] and
    its methods; none is called [user_id], so the lookup raises. *)
Definition user_id_attribute : Py State (list Z) := raise AttributeError.

Definition __contains__ (user_id : Z) : Py State bool :=
  let! ids := user_id_attribute in
  ret (bool_decide (user_id ∈ ids)).

(** [userloads.loads[user_id] = user_load], written by a caller: the
    property hands out the dict itself. *)
Definition loads_setitem (user_id : Z) (user_load : DataFrame) : Py State unit :=
  modify (set_loads <[user_id := user_load]>).

(** ** Module-level functions *)

(** The parameter [userloads] of the functions below is the object of the
    state they run in. *)

Definition period : Type := option timestamp * option timestamp.

Definition experiment_periods : list period :=
  let period1_start := strptime 2004 2 1 0 0 in
  let period1_end := strptime 2005 7 1 0 0 in
  let period2_start := strptime 2005 10 1 0 0 in
  let period2_end := strptime 2006 10 1 0 0 in
  [(Some period1_start, Some period1_end);
   (Some period2_start, Some period2_end)].

Definition total_load (user_ids : list Z) (p : period) : Py State DataFrame :=
  let! series :=
    comprehension (λ user, let! l := __getitem__ user in
                           ret (df_slice l p.1 p.2)) user_ids in
  match series with
  | [] => raise IndexError                         (* series[0] *)
  | first :: others =>
      let! total := df_copy first in
      for_each others (λ single_series, df_iadd total single_series) >>
      ret total
  end.

Definition total_load_in_experiment_periods (user_ids : list Z)
    : Py State (list DataFrame) :=
  let periods := experiment_periods in
  comprehension (λ p, total_load user_ids p) periods.
End Model.

Arguments HDFStore V : clear implicits.
Arguments UserLoads V : clear implicits.
Arguments State V : clear implicits.

(** ** numpy's generators and the globals of the module *)

Class NumPy := {
  rng : Type;                           (* the state of the global generator *)
  randint : Z → Z → rng → Z * rng;      (* np.random.randint(low, high) *)
  permutation : Z → list Z → list Z;    (* np.random.RandomState(seed).permutation(xs) *)
}.

Class NumPyLaws `{NumPy} : Prop := {
  permutation_Permutation : ∀ seed xs, permutation seed xs ≡ₚ xs;
  randint_range : ∀ low high g, low < high → low ≤ (randint low high g).1 < high;
}.

Section Globals.
Context {V : Type} `{Numeric V} `{NumPy}.

Record World := {
  data_without_dupes : option (HDFStore V);  (* the file at DATA_WITHOUT_DUPES_PATH *)
  _tempfeeder_exp : option (UserLoads V);    (* the global of that name *)
  np_random : rng;                           (* the global generator np.random *)
  w_heap : list (TimeSeries V);
  w_store_reads : list Z;
}.

Definition set_tempfeeder_exp (ul : UserLoads V) (w : World) : World :=
  {| data_without_dupes := data_without_dupes w; _tempfeeder_exp := Some ul;
     np_random := np_random w; w_heap := w_heap w;
     w_store_reads := w_store_reads w |}.

(** [pd.HDFStore(path, "r")] *)
Definition open_store (f : HDFStore V) : HDFStore V :=
  {| is_open := true;
     node_user_ids := node_user_ids f;
     node_user_ids_cln_pred_exp := node_user_ids_cln_pred_exp f;
     id_nodes := id_nodes f |}.

Definition tempfeeder_exp : Py World (UserLoads V) :=
  let! w := get_state in
  match _tempfeeder_exp w with
  | Some ul => ret ul
  | None =>
      match data_without_dupes w with
      | None => raise IOError
      | Some f =>
          let ul := __init__ _load_user_ids_Experiment (open_store f) in
          modify (set_tempfeeder_exp ul) >> ret ul
      end
  end.

(** The state in which a method of the object [ul] runs. *)
Definition state_of (ul : UserLoads V) (w : World) : State V :=
  {| self := ul; heap := w_heap w; store_reads := w_store_reads w |}.

(** Running code on [loads], the object the global [_tempfeeder_exp]
    refers to: what it does to the object is seen through the global. *)
Definition on_object {A} (ul : UserLoads V) (m : Py (State V) A) : Py World A :=
  λ w, let '(r, st) := m (state_of ul w) in
       (r, {| data_without_dupes := data_without_dupes w;
              _tempfeeder_exp := Some (self st);
              np_random := np_random w;
              w_heap := heap st;
              w_store_reads := store_reads st |}).

Definition np_random_randint (low high : Z) : Py World Z :=
  λ w, let '(n, g) := randint low high (np_random w) in
       (Ok n, {| data_without_dupes := data_without_dupes w;
                 _tempfeeder_exp := _tempfeeder_exp w;
                 np_random := g;
                 w_heap := w_heap w;
                 w_store_reads := w_store_reads w |}).

(** Lines 323 to 325 of [mean_experiment_load_for_user_subset]: the seed
    is drawn from the global generator when none is given, and the users
    are the first [num_users] of the permutation that a new
    [RandomState(seed)] makes of [all_ids].  [RandomState] takes seeds
    from 0 to 2**32 - 1. *)
Definition random_identifier_subset (all_ids : list Z) (num_users : Z)
    (seed : option Z) : Py World (list Z) :=
  let! seed := match seed with
               | None => np_random_randint 1 (2 ^ 16)
               | Some s => ret s
               end in
  if (0 <=? seed) && (seed <? 2 ^ 32)
  then ret (slice_to num_users (permutation seed all_ids))
  else raise ValueError.

Definition mean_experiment_load_for_user_subset (num_users : Z)
    (seed : option Z) : Py World (list DataFrame) :=
  let! loads := tempfeeder_exp in
  let! ids := random_identifier_subset (user_ids loads) num_users seed in
  on_object loads
    (let! totals := total_load_in_experiment_periods ids in
     comprehension (λ l, df_div l (Z.of_nat (length ids))) totals).
End Globals.

Arguments World V {_}.

(** ** Specification-side notions *)

Section Notions.
Context {V : Type} `{Numeric V}.

(** Every frame of the overlay has its block in the heap. *)
Definition frames_allocated (st : State V) : Prop :=
  ∀ id df, _loads (self st) !! id = Some df → (block df < length (heap st))%nat.

(** The store is open and has a table for every user ID. *)
Definition store_ready (ul : UserLoads V) : Prop :=
  is_open (_store ul) = true ∧
  ∀ id, id ∈ _user_ids ul → is_Some (id_nodes (_store ul) !! id).

(** Every key of the overlay is a user ID of the store. *)
Definition overlay_valid (ul : UserLoads V) : Prop :=
  ∀ id df, _loads ul !! id = Some df → id ∈ _user_ids ul.

#[export] Instance frames_allocated_dec (st : State V) :
  Decision (frames_allocated st).
Proof.
  change (Decision (map_Forall (λ _ df, (block df < length (heap st))%nat)
                      (_loads (self st)))).
  apply _.
Defined.

#[export] Instance store_ready_dec (ul : UserLoads V) : Decision (store_ready ul).
Proof.
  change (Decision (is_open (_store ul) = true ∧
                    set_Forall (λ id, is_Some (id_nodes (_store ul) !! id))
                      (_user_ids ul))).
  apply _.
Defined.

#[export] Instance overlay_valid_dec (ul : UserLoads V) : Decision (overlay_valid ul).
Proof.
  change (Decision (map_Forall (λ id _, id ∈ _user_ids ul) (_loads ul))).
  apply _.
Defined.

(** The rows that [userloads[id]] yields in [st]. *)
Definition series_of (st : State V) (id : Z) : TimeSeries V :=
  match _loads (self st) !! id with
  | Some df => rows (heap st) df
  | None => default [] (id_nodes (_store (self st)) !! id)
  end.

(** [st'] comes from [st] by allocating blocks and by loading users that
    had no entry in the overlay: the store and the user IDs are the same,
    the blocks of [st] are unchanged, the entries of [st] are unchanged,
    and a new entry holds what the store has for its user. *)
Definition grows (st st' : State V) : Prop :=
  _store (self st') = _store (self st) ∧
  _user_ids (self st') = _user_ids (self st) ∧
  (∃ new, heap st' = heap st ++ new) ∧
  (∀ id df, _loads (self st) !! id = Some df →
            _loads (self st') !! id = Some df) ∧
  (∀ id df, _loads (self st') !! id = Some df →
            _loads (self st) !! id = None →
            id ∈ _user_ids (self st) ∧
            (block df < length (heap st'))%nat ∧
            rows (heap st') df = default [] (id_nodes (_store (self st)) !! id)).

(** The frame that the next allocation returns. *)
Definition fresh_frame (st : State V) : DataFrame :=
  {| block := length (heap st); lower := None; upper := None |}.

(** The state after a successful [read] of [user_id], the store holding
    the series [s] for it. *)
Definition after_read (user_id : Z) (s : TimeSeries V) (st : State V) : State V :=
  set_loads <[user_id := fresh_frame st]>
    (set_heap (λ h, h ++ [s]) (log_read user_id st)).

(** The sum at label [t] of the series [ss], taken from left to right. *)
Definition sum_at (t : timestamp) (ss : list (TimeSeries V)) : V :=
  match ss with
  | [] => nan
  | s :: ss' => foldl (λ acc s', vadd acc (at_time t s')) (at_time t s) ss'
  end.

(** The element-wise sum, aligned on the labels [idx]. *)
Definition aligned_sum (idx : list timestamp) (ss : list (TimeSeries V))
    : TimeSeries V :=
  (λ t, (t, sum_at t ss)) <$> idx.

(** How many users [xs[:num_users]] keeps of [available] ones. *)
Definition drawn_size (num_users : Z) (available : nat) : Z :=
  if 0 <=? num_users then Z.min num_users (Z.of_nat available)
  else Z.max 0 (Z.of_nat available + num_users).

(** The seeds that [RandomState] takes; none given, one is drawn. *)
Definition seed_accepted (seed : option Z) : Prop :=
  match seed with Some s => 0 ≤ s < 2 ^ 32 | None => True end.

(** The operations of the cache, and a run of them. *)
Inductive Op :=
  | OpGet (user_id : Z)
  | OpSet (user_id : Z) (user_load : DataFrame)
  | OpRead (user_id : Z)
  | OpReadAll
  | OpPop (user_id : Z)
  | OpClose.

Definition run_op (st : State V) (o : Op) : State V :=
  match o with
  | OpGet user_id => (__getitem__ user_id st).2
  | OpSet user_id user_load => (__setitem__ user_id user_load st).2
  | OpRead user_id => (read user_id st).2
  | OpReadAll => (read_all st).2
  | OpPop user_id => (pop user_id st).2
  | OpClose => (close st).2
  end.

Definition run_ops (st : State V) (ops : list Op) : State V :=
  foldl run_op st ops.
End Notions.

(** ** A small instance: integer readings, a store of two users *)

Module Demo.
#[export] Instance Z_numeric : Numeric Z :=
  {| vadd := Z.add; vdiv := Z.div; nan := 0 |}.

#[export] Instance toy_numpy : NumPy :=
  {| rng := Z;
     randint := λ low high g, (low + g mod (high - low), g + 1);
     permutation := λ seed xs, if Z.even seed then reverse xs else xs |}.

Definition t0 : timestamp := strptime 2004 3 1 0 0.
Definition t1 : timestamp := strptime 2004 3 1 1 0.
Definition t2 : timestamp := strptime 2006 1 1 0 0.

Definition S1 : TimeSeries Z := [(t0, 6); (t1, 10); (t2, 4)].
Definition S2 : TimeSeries Z := [(t0, 6); (t1, 20); (t2, 8)].

Definition file : HDFStore Z :=
  {| is_open := true;
     node_user_ids := [1; 2];
     node_user_ids_cln_pred_exp := [1; 2];
     id_nodes := <[1 := S1]> (<[2 := S2]> ∅) |}.

Definition cache : State Z :=
  {| self := __init__ _load_user_ids file; heap := []; store_reads := [] |}.

Definition world : World Z :=
  {| data_without_dupes := Some file; _tempfeeder_exp := None;
     np_random := 7; w_heap := []; w_store_reads := [] |}.

(** A frame [v0] that a caller made, holding [V0], and the new cache
    next to it. *)
Definition V0 : TimeSeries Z := [(t0, 100); (t1, 200)].
Definition v0 : DataFrame := {| block := 0; lower := None; upper := None |}.
Definition cache_v : State Z := set_heap (λ _, [V0]) cache.

(** [cache[1] = v0] *)
Definition cache_set : State Z := (__setitem__ 1 v0 cache_v).2.

(** [cache.loads[99] = v0], 99 being no user of the store. *)
Definition cache_stray : State Z := (loads_setitem 99 v0 cache_v).2.

(** The singleton that [tempfeeder_exp()] makes in [world], the users
    drawn from it with seed 42, and their totals. *)
Definition loads_exp : UserLoads Z :=
  __init__ _load_user_ids_Experiment (open_store file).
Definition world1 : World Z := set_tempfeeder_exp loads_exp world.
Definition drawn : list Z := [1; 2].
Definition totals_run : Result (list DataFrame) * State Z :=
  total_load_in_experiment_periods drawn (state_of loads_exp world1).
Definition totals : list DataFrame :=
  match totals_run.1 with Ok ts => ts | Raise _ => [] end.
End Demo.

(** ** The rest of the module *)

Section ModelRest.
Context {V : Type} `{Numeric V}.

(** [__len__] *)
Definition __len__ (ul : UserLoads V) : nat := length (user_ids ul).

Definition NSK129_user_ids : list Z :=
  [707057500045751944;
   707057500045752170;
   707057500045752255;
   707057500045752231;
   707057500045752217;
   707057500045752194;
   707057500045752156;
   707057500045752132;
   707057500045752118;
   707057500045752088;
   707057500045752064;
   707057500045752057;
   707057500045752033;
   707057500045752002;
   707057500045751982;
   707057500045751975;
   707057500045751937;
   707057500045751913;
   707057500045745844;
   707057500045745851;
   707057500045745929;
   707057500045745936;
   707057500045746001;
   707057500045746018;
   707057500045745868;
   707057500045745875;
   707057500045745943;
   707057500045745950;
   707057500045746025;
   707057500045746032;
   707057500045745882;
   707057500045745837;
   707057500045745899;
   707057500045745974;
   707057500045746049;
   707057500045746056;
   707057500045745905;
   707057500045745981;
   707057500045745998;
   707057500045746063;
   707057500045746070;
   707057500045745912;
   707057500045745639;
   707057500045745707;
   707057500045745714;
   707057500045745783;
   707057500045745790;
   707057500045745646;
   707057500045745653;
   707057500045745738;
   707057500045745806;
   707057500045745615;
   707057500045745776;
   707057500045745622;
   707057500045745578;
   707057500045745585;
   707057500045745592;
   707057500045745813;
   707057500045745660;
   707057500045745684;
   707057500045745721;
   707057500045745769;
   707057500045745677;
   707057500045745745;
   707057500045745752;
   707057500045745608;
   707057500045750442;
   707057500045752613;
   707057500045752606;
   707057500045752163;
   707057500045752200;
   707057500045752224;
   707057500045752149;
   707057500045752187;
   707057500045752293;
   707057500045752286;
   707057500045752071;
   707057500045752040;
   707057500045752095;
   707057500045752125;
   707057500045752101;
   707057500045752026;
   707057500045752279;
   707057500045752262;
   707057500045751814;
   707057500045751807;
   707057500045751890;
   707057500045751883;
   707057500045751876;
   707057500045751869;
   707057500045751821;
   707057500045751838;
   707057500045751845;
   707057500045751852;
   707057500045751999;
   707057500045751951;
   707057500045752019;
   707057500045751920;
   707057500045751968;
   707057500045751906;
   707057500045745691;
   707057500045745967].

(** [NSK129]: the frame that [read] returns for the first user is the
    receiver of every [+=]; it is not copied. *)
Definition NSK129 : Py (State V) DataFrame :=
  let nsk129 := NSK129_user_ids in
  match nsk129 with
  | [] => raise IndexError                           (* nsk129[0] *)
  | first :: others =>
      let! total := read first in
      for_each others (λ user_id, let! l := read user_id in df_iadd total l) >>
      ret total
  end.

(** [[x for x in xs if cond(x)]] *)
Fixpoint comprehension_if {S A} (xs : list A) (cond : A → Py S bool)
    : Py S (list A) :=
  match xs with
  | [] => ret []
  | x :: xs' =>
      let! keep := cond x in
      let! ys := comprehension_if xs' cond in
      ret (if keep then x :: ys else ys)
  end.
End ModelRest.

Section GlobalsRest.
Context {V : Type} `{Numeric V} `{NumPy}.


(** [load_nonzero v]: the reading in the column 'Load' of the row [v] is
    true in Python's sense (it is not zero). *)
Context (load_nonzero : V → bool).

(** [all(df['Load']['2005-10-01 00:00':])] for the frame [df]. *)
Definition all_loads_nonzero (h : list (TimeSeries V)) (df : DataFrame) : bool :=
  forallb load_nonzero
    (rows h (df_slice df (Some (strptime 2005 10 1 0 0)) None)).*2.

Definition tempfeeder_exp_nonzerotest_users : Py (World V) (list Z) :=
  let! loads := tempfeeder_exp in
  comprehension_if (user_ids loads)
    (λ user,
       let! loads' := tempfeeder_exp in
       let! df := on_object loads' (__getitem__ user) in
       let! w := get_state in
       ret (all_loads_nonzero (w_heap w) df)).
End GlobalsRest.

Section NotionsRest.
Context {V : Type} `{Numeric V}.

(** What the store holds for a user; no rows when it has no table. *)
Definition stored (ul : UserLoads V) (id : Z) : TimeSeries V :=
  default [] (id_nodes (_store ul) !! id).

(** The tables of the file, apart from its being open or closed. *)
Definition store_tables (f : HDFStore V)
    : list Z * list Z * gmap Z (TimeSeries V) :=
  (node_user_ids f, node_user_ids_cln_pred_exp f, id_nodes f).

(** [st'] has the user IDs and the tables of [st]. *)
Definition same_data (st st' : State V) : Prop :=
  _user_ids (self st') = _user_ids (self st) ∧
  store_tables (_store (self st')) = store_tables (_store (self st)).

(** The loop of [NSK129] over any list of users. *)
Definition accumulate_reads (total : DataFrame) (others : list Z)
    : Py (State V) unit :=
  for_each others (λ user_id, let! l := read user_id in df_iadd total l).

(** The total of the users [ids] within [p], as [total_load] folds it. *)
Definition period_total (st : State V) (ids : list Z) (p : period) : TimeSeries V :=
  match ids with
  | [] => []
  | id0 :: rest =>
      foldl add_rows (restrict p.1 p.2 (series_of st id0))
        ((λ id, restrict p.1 p.2 (series_of st id)) <$> rest)
  end.
End NotionsRest.

Section NotionsNonzero.
Context {V : Type} `{Numeric V} (load_nonzero : V → bool).

(** No reading of the user is zero from 2005-10-01 00:00 on, in the series
    that a subscript yields in [st]. *)
Definition nonzero_in_test_period (st : State V) (id : Z) : bool :=
  forallb load_nonzero
    (restrict (Some (strptime 2005 10 1 0 0)) None (series_of st id)).*2.
End NotionsNonzero.

(** ** More of the instance *)

Module DemoRest.
Import Demo.

(** The cache after [cache[1] = v0] and a first total over both users. *)
Definition total_run : Result DataFrame * State Z :=
  total_load [1; 2] (Some t0, Some t1) cache_set.
Definition total_frame : DataFrame :=
  {| block := 2; lower := None; upper := None |}.

(** A store that holds the users of NSK129-T1, each with one reading [1]
    at [t0], and a new cache on it. *)
Definition nsk_file : HDFStore Z :=
  {| is_open := true;
     node_user_ids := NSK129_user_ids;
     node_user_ids_cln_pred_exp := [];
     id_nodes := list_to_map ((λ id, (id, [(t0, 1)])) <$> NSK129_user_ids) |}.
Definition nsk_cache : State Z :=
  {| self := __init__ _load_user_ids nsk_file; heap := []; store_reads := [] |}.

(** Integer readings: a row is its 'Load'. *)
Definition Z_nonzero (v : Z) : bool := negb (v =? 0).

(** A store whose user 2 has a zero reading in the test period. *)
Definition file0 : HDFStore Z :=
  {| is_open := true;
     node_user_ids := [1; 2];
     node_user_ids_cln_pred_exp := [1; 2];
     id_nodes := <[1 := S1]> (<[2 := [(t0, 6); (t2, 0)]]> ∅) |}.
Definition loads0 : UserLoads Z :=
  __init__ _load_user_ids_Experiment (open_store file0).
Definition world0 : World Z :=
  {| data_without_dupes := Some file0; _tempfeeder_exp := None;
     np_random := 7; w_heap := []; w_store_reads := [] |}.
End DemoRest.

(** ** An instance with binary64 readings *)

Module FloatDemo.
Import PrimFloat.

Fixpoint float_of_positive (n : positive) : float :=
  match n with
  | xH => 1%float
  | xO n' => (2 * float_of_positive n')%float
  | xI n' => (2 * float_of_positive n' + 1)%float
  end.

Definition float_of_Z (n : Z) : float :=
  match n with
  | Z0 => 0%float
  | Zpos n' => float_of_positive n'
  | Zneg n' => (- float_of_positive n')%float
  end.

#[export] Instance float_numeric : Numeric float :=
  Build_Numeric float PrimFloat.add
    (λ x n, PrimFloat.div x (float_of_Z n)) PrimFloat.nan.

(** The binary64 numbers nearest to 0.1, 0.2 and 0.3. *)
Definition tenth : float := 0x1.999999999999ap-4%float.
Definition fifth : float := 0x1.999999999999ap-3%float.
Definition three_tenths : float := 0x1.3333333333333p-2%float.

(** The binary64 number nearest to 0.6, and the next one up. *)
Definition six_tenths : float := 0x1.3333333333333p-1%float.
Definition six_tenths_up : float := 0x1.3333333333334p-1%float.

(** Three users with one reading each at the same hour. *)
Definition float_file : HDFStore float :=
  {| is_open := true;
     node_user_ids := [1; 2; 3];
     node_user_ids_cln_pred_exp := [1; 2; 3];
     id_nodes := <[1 := [(Demo.t0, tenth)]]>
                   (<[2 := [(Demo.t0, fifth)]]>
                      (<[3 := [(Demo.t0, three_tenths)]]> ∅)) |}.

Definition float_cache : State float :=
  {| self := __init__ _load_user_ids float_file; heap := [];
     store_reads := [] |}.

Definition hour : period := (Some Demo.t0, Some Demo.t0).

(** The reading of a total that has one row. *)
Definition reading (s : TimeSeries float) : float :=
  match s with
  | [(_, v)] => v
  | _ => PrimFloat.nan
  end.
End FloatDemo.

(** * Properties *)

Section Series.
Context {V : Type} `{Numeric V}.
Implicit Types (s a b : TimeSeries V) (h : list (TimeSeries V)) (df : DataFrame).

Lemma in_period_join lo hi lo' hi' t :
  in_period (join_lower lo lo') (join_upper hi hi') t
  = in_period lo hi t && in_period lo' hi' t.
Proof.
  unfold in_period, join_lower, join_upper.
  destruct lo, lo', hi, hi'; simpl;
    repeat match goal with
           | |- context [?x <=? ?y] => destruct (Z.leb_spec x y)
           end; simpl; try reflexivity; lia.
Qed.

Lemma restrict_restrict lo hi lo' hi' s :
  restrict lo' hi' (restrict lo hi s)
  = restrict (join_lower lo lo') (join_upper hi hi') s.
Proof.
  unfold restrict. induction s as [|r s IH]; simpl; [done|].
  rewrite in_period_join.
  destruct (in_period lo hi r.1); simpl; [|done].
  destruct (in_period lo' hi' r.1); simpl; by rewrite IH.
Qed.

Lemma rows_df_slice h df lo hi :
  rows h (df_slice df lo hi) = restrict lo hi (rows h df).
Proof. unfold rows, df_slice; simpl. by rewrite restrict_restrict. Qed.

Lemma restrict_open s : restrict None None s = s.
Proof.
  unfold restrict. induction s as [|r s IH]; simpl; [done|]. by rewrite IH.
Qed.

Lemma iadd_block_open other b : iadd_block None None other b = add_rows b other.
Proof. reflexivity. Qed.

Lemma restrict_iadd_block lo hi other b :
  restrict lo hi (iadd_block lo hi other b) = add_rows (restrict lo hi b) other.
Proof.
  unfold restrict, iadd_block, add_rows.
  induction b as [|r b IH]; [done|].
  rewrite fmap_cons. destruct (in_period lo hi r.1) eqn:E.
  - cbn [List.filter fst]. rewrite E, fmap_cons. by f_equal.
  - cbn [List.filter]. by rewrite E.
Qed.

Lemma index_add_rows a b : index (add_rows a b) = index a.
Proof.
  unfold index, add_rows. rewrite <- list_fmap_compose. by apply list_fmap_ext.
Qed.

(** Folding [+=] over the others: every row of the first series takes, at
    its own label, the readings of the others in turn. *)
Lemma fold_add_rows (others : list (TimeSeries V)) a :
  foldl add_rows a others
  = (λ r, (r.1, foldl (λ acc s', vadd acc (at_time r.1 s')) r.2 others)) <$> a.
Proof.
  revert a. induction others as [|o others IH]; intros a; simpl.
  - induction a as [|[t v] a IHa]; [done|]. rewrite fmap_cons. by f_equal.
  - rewrite IH. unfold add_rows. rewrite <- list_fmap_compose. reflexivity.
Qed.

Lemma at_time_NoDup s t v :
  NoDup (index s) → (t, v) ∈ s → at_time t s = v.
Proof.
  unfold index. induction s as [|[t' v'] s IH]; simpl; intros Hnd Hin.
  - by apply elem_of_nil in Hin.
  - apply NoDup_cons in Hnd as [Hni Hnd].
    apply elem_of_cons in Hin as [Heq|Hin].
    + inversion Heq; subst. by rewrite Z.eqb_refl.
    + destruct (Z.eqb_spec t t') as [->|_]; [|by apply IH].
      exfalso. apply Hni. apply list_elem_of_fmap. by exists (t', v).
Qed.

Lemma fmap_rows_index (F : timestamp → V → V) s :
  NoDup (index s) →
  (λ r, (r.1, F r.1 r.2)) <$> s = (λ t, (t, F t (at_time t s))) <$> index s.
Proof.
  intros Hnd. unfold index. rewrite <- list_fmap_compose.
  apply list_fmap_ext. intros i [t v] Hin; simpl.
  apply list_elem_of_lookup_2 in Hin. by rewrite (at_time_NoDup s t v).
Qed.

(** The fold of [total_load] computes the aligned sum on the labels of
    the first series. *)
Lemma fold_add_rows_aligned_sum (others : list (TimeSeries V)) a :
  NoDup (index a) →
  foldl add_rows a others = aligned_sum (index a) (a :: others).
Proof.
  intros Hnd. rewrite fold_add_rows.
  by rewrite (fmap_rows_index
                (λ t v, foldl (λ acc s', vadd acc (at_time t s')) v others)).
Qed.
End Series.

Section Cache.
Context {V : Type} `{Numeric V}.
Implicit Types (st : State V) (s : TimeSeries V) (h : list (TimeSeries V))
  (df : DataFrame) (id user_id : Z).

Lemma rows_app_l h h' df :
  (block df < length h)%nat → rows (h ++ h') df = rows h df.
Proof. intros Hlt. unfold rows. by rewrite lookup_app_l. Qed.

Lemma rows_fresh st s h' :
  rows (heap st ++ s :: h') (fresh_frame st) = s.
Proof.
  unfold rows, fresh_frame; simpl.
  rewrite list_lookup_middle by done. simpl. apply restrict_open.
Qed.

Lemma elem_of_user_ids (ul : UserLoads V) id :
  id ∈ user_ids ul ↔ id ∈ _user_ids ul.
Proof. unfold user_ids. apply elem_of_elements. Qed.

(** *** What [read] does, case by case *)

Lemma read_invalid st id :
  id ∉ _user_ids (self st) → read id st = (Raise KeyError, st).
Proof.
  intros Hni. unfold read, bind, get_state.
  rewrite bool_decide_eq_false_2; [done|]. by rewrite elem_of_user_ids.
Qed.

Lemma read_closed st id :
  id ∈ _user_ids (self st) → is_open (_store (self st)) = false →
  read id st = (Raise ClosedFileError, log_read id st).
Proof.
  intros Hin Hop. unfold read, bind, get_state.
  rewrite bool_decide_eq_true_2 by (by rewrite elem_of_user_ids). simpl.
  unfold store_getitem, bind, modify, get_state. simpl. by rewrite Hop.
Qed.

Lemma read_missing st id :
  id ∈ _user_ids (self st) → is_open (_store (self st)) = true →
  id_nodes (_store (self st)) !! id = None →
  read id st = (Raise KeyError, log_read id st).
Proof.
  intros Hin Hop Hno. unfold read, bind, get_state.
  rewrite bool_decide_eq_true_2 by (by rewrite elem_of_user_ids). simpl.
  unfold store_getitem, bind, modify, get_state. simpl. by rewrite Hop, Hno.
Qed.

Lemma read_ok st id s :
  id ∈ _user_ids (self st) → is_open (_store (self st)) = true →
  id_nodes (_store (self st)) !! id = Some s →
  read id st = (Ok (fresh_frame st), after_read id s st).
Proof.
  intros Hin Hop Hs. unfold read, bind, get_state.
  rewrite bool_decide_eq_true_2 by (by rewrite elem_of_user_ids). simpl.
  unfold store_getitem, bind, modify, get_state. simpl. by rewrite Hop, Hs.
Qed.

(** Through a frame whose block is allocated, [+=] shows the sums. *)
Lemma df_iadd_rows st (total other : DataFrame) :
  (block total < length (heap st))%nat →
  rows (heap (df_iadd total other st).2) total
  = add_rows (rows (heap st) total) (rows (heap st) other).
Proof.
  intros Hlt. unfold df_iadd, bind, get_state, modify, rows; simpl.
  rewrite list_lookup_alter_eq.
  destruct (lookup_lt_is_Some_2 _ _ Hlt) as [b ->]. simpl.
  apply restrict_iadd_block.
Qed.

Lemma getitem_cached st id df :
  _loads (self st) !! id = Some df → __getitem__ id st = (Ok df, st).
Proof. intros Hc. unfold __getitem__, bind, get_state. by rewrite Hc. Qed.

Lemma getitem_uncached st id :
  _loads (self st) !! id = None → __getitem__ id st = read id st.
Proof. intros Hc. unfold __getitem__, bind, get_state. by rewrite Hc. Qed.

(** *** [grows] *)

Lemma grows_refl st : grows st st.
Proof.
  split; [done|]. split; [done|].
  split; [exists []; by rewrite app_nil_r|].
  split; [done|]. congruence.
Qed.

Lemma grows_trans st1 st2 st3 : grows st1 st2 → grows st2 st3 → grows st1 st3.
Proof.
  intros (Hs1 & Hu1 & [n1 Hh1] & Hk1 & Hn1) (Hs2 & Hu2 & [n2 Hh2] & Hk2 & Hn2).
  split; [congruence|]. split; [congruence|].
  split; [exists (n1 ++ n2); by rewrite Hh2, Hh1, app_assoc|].
  split; [by auto|].
  intros id df H3 H1.
  destruct (_loads (self st2) !! id) as [df2|] eqn:E2.
  - pose proof (Hk2 _ _ E2) as H3'. rewrite H3 in H3'. inversion H3'; subst df2.
    destruct (Hn1 _ _ E2 H1) as (Hin & Hlt & Hrows).
    split; [done|]. rewrite Hh2. split.
    + rewrite length_app. lia.
    + by rewrite rows_app_l.
  - destruct (Hn2 _ _ H3 E2) as (Hin & Hlt & Hrows).
    rewrite <- Hu1, <- Hs1. done.
Qed.

Lemma grows_frames_allocated st st' :
  grows st st' → frames_allocated st → frames_allocated st'.
Proof.
  intros (_ & _ & [new Hh] & Hk & Hn) Hfa id df Hl.
  destruct (_loads (self st) !! id) as [df0|] eqn:E.
  - pose proof (Hk _ _ E) as Hl'. rewrite Hl in Hl'. inversion Hl'; subst df0.
    rewrite Hh, length_app. specialize (Hfa _ _ E). lia.
  - by destruct (Hn _ _ Hl E) as (_ & ? & _).
Qed.

Lemma grows_series_of st st' id :
  grows st st' → frames_allocated st → series_of st' id = series_of st id.
Proof.
  intros (Hs & _ & [new Hh] & Hk & Hn) Hfa. unfold series_of.
  destruct (_loads (self st) !! id) as [df0|] eqn:E.
  - rewrite (Hk _ _ E), Hh. apply rows_app_l. by eapply Hfa.
  - destruct (_loads (self st') !! id) as [df|] eqn:E'.
    + by destruct (Hn _ _ E' E) as (_ & _ & ?).
    + by rewrite Hs.
Qed.

Lemma grows_rows st st' df :
  grows st st' → (block df < length (heap st))%nat →
  rows (heap st') df = rows (heap st) df.
Proof. intros (_ & _ & [new Hh] & _) Hlt. rewrite Hh. by apply rows_app_l. Qed.

Lemma grows_length st st' :
  grows st st' → (length (heap st) ≤ length (heap st'))%nat.
Proof. intros (_ & _ & [new Hh] & _). rewrite Hh, length_app. lia. Qed.

Lemma after_read_grows st id s :
  id ∈ _user_ids (self st) → _loads (self st) !! id = None →
  id_nodes (_store (self st)) !! id = Some s →
  grows st (after_read id s st).
Proof.
  intros Hin Hc Hs. unfold after_read.
  split; [done|]. split; [done|]. split; [by exists [s]|]. simpl. split.
  - intros id' df Hl. rewrite lookup_insert_ne; [done|]. congruence.
  - intros id' df Hl Hn. destruct (decide (id = id')) as [<-|Hne].
    + rewrite lookup_insert_eq in Hl. inversion Hl; subst df.
      split; [done|]. split.
      * simpl. rewrite length_app. simpl. lia.
      * simpl. rewrite Hs. apply rows_fresh.
    + rewrite lookup_insert_ne in Hl by done. congruence.
Qed.

Lemma log_read_grows st id : grows st (log_read id st).
Proof.
  split; [done|]. split; [done|].
  split; [exists []; simpl; by rewrite app_nil_r|].
  split; [done|]. simpl. congruence.
Qed.

(** A subscript only adds to the state, whether it returns or raises. *)
Lemma getitem_grows st id : grows st (__getitem__ id st).2.
Proof.
  destruct (_loads (self st) !! id) as [df|] eqn:E.
  - rewrite (getitem_cached _ _ _ E). apply grows_refl.
  - rewrite (getitem_uncached _ _ E).
    destruct (decide (id ∈ _user_ids (self st))) as [Hin|Hni].
    2:{ rewrite read_invalid by done. apply grows_refl. }
    destruct (is_open (_store (self st))) eqn:Hop.
    2:{ rewrite read_closed by done. apply log_read_grows. }
    destruct (id_nodes (_store (self st)) !! id) as [s|] eqn:Hs.
    2:{ rewrite read_missing by done. apply log_read_grows. }
    rewrite (read_ok _ _ s) by done. by apply after_read_grows.
Qed.
End Cache.

Section TotalLoad.
Context {V : Type} `{Numeric V}.
Implicit Types (st : State V) (s : TimeSeries V) (h : list (TimeSeries V))
  (df : DataFrame) (id : Z) (p : period) (ids : list Z).

Local Abbreviation load_slice p :=
  (λ user, let! l := __getitem__ user in ret (df_slice l p.1 p.2)).

(** The loop of [total_load] writes into the block of [total] only, the
    last one allocated. *)
Lemma accumulate_run (ul : UserLoads V) log h (others : list DataFrame) x total :
  block total = length h → lower total = None → upper total = None →
  ∃ x',
    for_each others (λ single_series, df_iadd total single_series)
      {| self := ul; heap := h ++ [x]; store_reads := log |}
    = (Ok tt, {| self := ul; heap := h ++ [x']; store_reads := log |}) ∧
    (Forall (λ o, (block o < length h)%nat) others →
     x' = foldl add_rows x (rows h <$> others)).
Proof.
  intros Hb Hl Hu. revert x.
  induction others as [|o others IH]; intros x.
  - exists x. by split.
  - destruct (IH (add_rows x (rows (h ++ [x]) o))) as (x' & Hrun & Hval).
    exists x'. split.
    + cbn [for_each]. unfold bind at 1.
      unfold df_iadd at 1, bind, get_state, modify, set_heap. cbn [heap self store_reads].
      rewrite Hb, Hl, Hu.
      replace (length h) with (length h + 0)%nat at 1 by lia.
      rewrite alter_app_r. exact Hrun.
    + intros Hall. apply Forall_cons in Hall as [Ho Hall].
      rewrite fmap_cons. cbn [foldl].
      rewrite <- (rows_app_l h [x] o Ho). by apply Hval.
Qed.

Lemma comprehension_grows p ids st :
  grows st (comprehension (load_slice p) ids st).2.
Proof.
  revert st. induction ids as [|id ids IH]; intros st.
  - apply grows_refl.
  - cbn [comprehension]. unfold bind at 1. unfold bind at 1.
    pose proof (getitem_grows st id) as Hg.
    destruct (__getitem__ id st) as [[l|e] sta]; simpl in *; [|done].
    unfold ret at 1. unfold bind.
    specialize (IH sta).
    destruct (comprehension _ ids sta) as [[ys|e] stb]; simpl in *;
      by eapply grows_trans.
Qed.

(** [total_load] only adds to the state, whether it returns or raises:
    no block that existed before the call is written. *)
Lemma total_load_grows ids p st : grows st (total_load ids p st).2.
Proof.
  unfold total_load. unfold bind at 1.
  pose proof (comprehension_grows p ids st) as Hg.
  destruct (comprehension _ ids st) as [[series|e] st1]; simpl in *; [|done].
  destruct series as [|first others]; [done|].
  unfold bind at 1. unfold df_copy, bind, get_state, new_frame, set_heap.
  destruct st1 as [ul h log]; cbn [heap self store_reads] in *.
  destruct (accumulate_run ul log h others (rows h first)
              {| block := length h; lower := None; upper := None |})
    as (x' & -> & _); [done..|].
  unfold ret; cbn [snd]. eapply grows_trans; [exact Hg|].
  split; [done|]. split; [done|]. split; [by exists [x']|].
  split; [done|]. simpl. congruence.
Qed.

Lemma getitem_ok st id :
  frames_allocated st → store_ready (self st) → id ∈ _user_ids (self st) →
  ∃ l sta, __getitem__ id st = (Ok l, sta) ∧
           rows (heap sta) l = series_of st id ∧
           (block l < length (heap sta))%nat.
Proof.
  intros Hfa [Hop Hnodes] Hin. unfold series_of.
  destruct (_loads (self st) !! id) as [df|] eqn:E.
  - exists df, st. rewrite (getitem_cached _ _ _ E). eauto.
  - destruct (Hnodes _ Hin) as [s Hs].
    exists (fresh_frame st), (after_read id s st).
    rewrite (getitem_uncached _ _ E), (read_ok _ _ s) by done.
    rewrite Hs. split; [done|]. simpl. split; [apply rows_fresh|].
    rewrite length_app. simpl. lia.
Qed.

Lemma grows_store_ready st st' :
  grows st st' → store_ready (self st) → store_ready (self st').
Proof. intros (Hs & Hu & _) [Hop Hn]. unfold store_ready. by rewrite Hs, Hu. Qed.

(** With the store ready, the comprehension of [total_load] returns the
    restricted series of the users, in order. *)
Lemma comprehension_ok p ids st :
  frames_allocated st → store_ready (self st) →
  Forall (λ id, id ∈ _user_ids (self st)) ids →
  ∃ series st1,
    comprehension (load_slice p) ids st = (Ok series, st1) ∧
    rows (heap st1) <$> series
      = (λ id, restrict p.1 p.2 (series_of st id)) <$> ids ∧
    Forall (λ f, (block f < length (heap st1))%nat) series.
Proof.
  revert st. induction ids as [|id ids IH]; intros st Hfa Hready Hall.
  - exists [], st. by repeat split.
  - apply Forall_cons in Hall as [Hin Hall].
    destruct (getitem_ok st id Hfa Hready Hin) as (l & sta & Hget & Hrows & Hlt).
    pose proof (getitem_grows st id) as Hg. rewrite Hget in Hg; simpl in Hg.
    destruct (IH sta) as (series & st1 & Hrun & Hser & Halloc).
    { by eapply grows_frames_allocated. }
    { by eapply grows_store_ready. }
    { destruct Hg as (_ & -> & _). done. }
    pose proof (comprehension_grows p ids sta) as Hg1.
    rewrite Hrun in Hg1; simpl in Hg1.
    exists (df_slice l p.1 p.2 :: series), st1. split; [|split].
    + cbn [comprehension]. unfold bind at 1. unfold bind at 1.
      rewrite Hget. unfold ret at 1. cbv beta iota.
      unfold bind at 1. rewrite Hrun. done.
    + rewrite !fmap_cons. f_equal.
      * rewrite rows_df_slice, (grows_rows sta st1) by done. by rewrite Hrows.
      * rewrite Hser. apply list_fmap_ext. intros _ id' _.
        by rewrite (grows_series_of st sta).
    + apply Forall_cons. split; [|done]. simpl.
      pose proof (grows_length _ _ Hg1). lia.
Qed.

(** With the store ready and valid users, [total_load] returns a new frame
    that holds the fold of [+=] over the restricted series. *)
Lemma total_load_ok p id0 rest st :
  frames_allocated st → store_ready (self st) →
  Forall (λ id, id ∈ _user_ids (self st)) (id0 :: rest) →
  ∃ total st',
    total_load (id0 :: rest) p st = (Ok total, st') ∧
    rows (heap st') total
      = foldl add_rows (restrict p.1 p.2 (series_of st id0))
          ((λ id, restrict p.1 p.2 (series_of st id)) <$> rest) ∧
    (block total < length (heap st'))%nat.
Proof.
  intros Hfa Hready Hall.
  destruct (comprehension_ok p (id0 :: rest) st Hfa Hready Hall)
    as (series & st1 & Hrun & Hser & Halloc).
  destruct series as [|first others]; [done|].
  rewrite !fmap_cons in Hser. injection Hser as Hfirst Hothers.
  apply Forall_cons in Halloc as [_ Halloc].
  destruct st1 as [ul h log]; cbn [heap self store_reads] in *.
  destruct (accumulate_run ul log h others (rows h first)
              {| block := length h; lower := None; upper := None |})
    as (x' & Hloop & Hval); [done..|].
  exists {| block := length h; lower := None; upper := None |},
         {| self := ul; heap := h ++ [x']; store_reads := log |}.
  split; [|split].
  - unfold total_load. unfold bind at 1. rewrite Hrun.
    unfold bind at 1. unfold df_copy, bind, get_state, new_frame, set_heap.
    cbn [heap self store_reads]. by rewrite Hloop.
  - cbn [heap].
    pose proof (rows_fresh {| self := ul; heap := h; store_reads := log |} x' [])
      as Hfresh.
    unfold fresh_frame in Hfresh; cbn [heap] in Hfresh. rewrite Hfresh.
    rewrite (Hval Halloc). by rewrite Hfirst, Hothers.
  - cbn [heap block]. rewrite length_app. simpl. lia.
Qed.
End TotalLoad.

Section CacheClaims.
Context {V : Type} `{Numeric V}.
Implicit Types (st : State V) (s : TimeSeries V) (h : list (TimeSeries V))
  (df : DataFrame) (id user_id : Z).

(** C1. A subscript with a user ID that has no entry in the overlay looks
    the user up in the store exactly once.  When the store answers (it is
    open and has the table of the user) the frame read holds the stored
    series unchanged, it is put in the overlay under the ID and it is the
    value returned; any number of further subscripts with the ID return
    that same frame and leave the state, the log of store reads included,
    as it is. *)
Theorem getitem_reads_once st id :
  id ∈ _user_ids (self st) →
  _loads (self st) !! id = None →
  store_reads (__getitem__ id st).2 = store_reads st ++ [id] ∧
  ∀ s, is_open (_store (self st)) = true →
       id_nodes (_store (self st)) !! id = Some s →
       ∃ df st',
         __getitem__ id st = (Ok df, st') ∧
         rows (heap st') df = s ∧
         _loads (self st') = <[id := df]> (_loads (self st)) ∧
         _store (self st') = _store (self st) ∧
         ∀ n, comprehension (λ _ : unit, __getitem__ id) (replicate n ()) st'
              = (Ok (replicate n df), st').
Proof.
  intros Hin Hc. rewrite (getitem_uncached _ _ Hc). split.
  - destruct (is_open (_store (self st))) eqn:Hop.
    2:{ by rewrite read_closed. }
    destruct (id_nodes (_store (self st)) !! id) as [s|] eqn:Hs.
    + by rewrite (read_ok _ _ s).
    + by rewrite read_missing.
  - intros s Hop Hs. exists (fresh_frame st), (after_read id s st).
    rewrite (read_ok _ _ s) by done.
    split; [done|]. split; [exact (rows_fresh st s [])|].
    split; [done|]. split; [done|].
    assert (__getitem__ id (after_read id s st)
            = (Ok (fresh_frame st), after_read id s st)) as Hget.
    { apply getitem_cached. simpl. apply lookup_insert_eq. }
    induction n as [|n IH]; [done|].
    cbn [replicate comprehension]. unfold bind at 1. rewrite Hget.
    unfold bind at 1. by rewrite IH.
Qed.

(** C2. [total_load] with no user fails, whatever the cache and the
    period: [series[0]] raises IndexError, the error that stands for
    EmptyIdentifierSet, which is not the KeyError of an unknown user; no
    series is returned and the cache is left as it was. *)
Theorem total_load_empty_raises st (p : period) :
  total_load [] p st = (Raise IndexError, st) ∧ IndexError ≠ KeyError.
Proof. split; [reflexivity | discriminate]. Qed.

(** C3 (as the code has it). [__contains__] raises AttributeError for
    every cache and every user ID, valid or not: it looks up [self.user_id],
    which no [UserLoads] object has, where the other methods use
    [self.user_ids]. *)
Theorem contains_raises_AttributeError st id :
  __contains__ id st = (Raise AttributeError, st).
Proof. reflexivity. Qed.

(** C7. Assigning a frame [v] to a valid user and then calling [read] for
    that user discards [v]: [read] returns a new frame that holds the
    series of the store, puts it in the overlay in place of [v], and the
    next subscript returns that frame without reading the store.  The
    store itself is as before, and so are the rows of [v]. *)
Theorem setitem_then_read_discards st id (v : DataFrame) s :
  id ∈ _user_ids (self st) →
  is_open (_store (self st)) = true →
  id_nodes (_store (self st)) !! id = Some s →
  ∃ df st1 st2,
    __setitem__ id v st = (Ok (), st1) ∧
    _loads (self st1) !! id = Some v ∧
    read id st1 = (Ok df, st2) ∧
    rows (heap st2) df = s ∧
    _loads (self st2) !! id = Some df ∧
    __getitem__ id st2 = (Ok df, st2) ∧
    _store (self st2) = _store (self st) ∧
    ((block v < length (heap st))%nat →
     block df ≠ block v ∧ rows (heap st2) v = rows (heap st) v).
Proof.
  intros Hin Hop Hs.
  set (st1 := set_loads <[id := v]> st).
  exists (fresh_frame st1), st1, (after_read id s st1).
  assert (_loads (self (after_read id s st1)) !! id = Some (fresh_frame st1))
    as Hl by (simpl; apply lookup_insert_eq).
  split.
  { unfold __setitem__, bind, get_state.
    by rewrite bool_decide_eq_true_2 by (by rewrite elem_of_user_ids). }
  split; [simpl; apply lookup_insert_eq|].
  split; [by apply read_ok|].
  split; [exact (rows_fresh st1 s [])|].
  split; [done|].
  split; [by apply getitem_cached|].
  split; [done|].
  intros Hlt. simpl. split; [lia|]. by apply rows_app_l.
Qed.

(** *** The overlay holds valid users only *)

Lemma read_state st id :
  (read id st).2 = st ∨ (read id st).2 = log_read id st ∨
  ∃ s, id ∈ _user_ids (self st) ∧ (read id st).2 = after_read id s st.
Proof.
  destruct (decide (id ∈ _user_ids (self st))) as [Hin|Hni].
  2:{ rewrite read_invalid by done. by left. }
  destruct (is_open (_store (self st))) eqn:Hop.
  2:{ rewrite read_closed by done. right; by left. }
  destruct (id_nodes (_store (self st)) !! id) as [s|] eqn:Hs.
  2:{ rewrite read_missing by done. right; by left. }
  rewrite (read_ok _ _ s) by done. right; right. by exists s.
Qed.

Lemma read_overlay_valid st id :
  overlay_valid (self st) → overlay_valid (self (read id st).2).
Proof.
  intros Hv. destruct (read_state st id) as [-> | [-> | (s & Hin & ->)]];
    [done..|].
  intros id' df Hl. simpl in *.
  destruct (decide (id = id')) as [<-|Hne]; [done|].
  rewrite lookup_insert_ne in Hl by done. by eapply Hv.
Qed.

Lemma for_each_invariant {A} (P : State V → Prop) (body : A → Py (State V) unit) xs st :
  (∀ x st, P st → P (body x st).2) → P st → P (for_each xs body st).2.
Proof.
  intros Hbody. revert st. induction xs as [|x xs IH]; intros st HP; [done|].
  cbn [for_each]. unfold bind. specialize (Hbody x st HP).
  destruct (body x st) as [[[]|e] st1]; simpl in *; [by apply IH|done].
Qed.

Lemma run_op_overlay_valid st (o : Op) :
  overlay_valid (self st) → overlay_valid (self (run_op st o)).
Proof.
  intros Hv. destruct o as [id|id v|id| |id|]; simpl.
  - destruct (_loads (self st) !! id) as [df|] eqn:E.
    + by rewrite (getitem_cached _ _ _ E).
    + rewrite (getitem_uncached _ _ E). by apply read_overlay_valid.
  - unfold __setitem__, bind, get_state.
    destruct (decide (id ∈ user_ids (self st))) as [Hin|Hni].
    + rewrite bool_decide_eq_true_2 by done. unfold modify; simpl.
      intros id' df Hl. simpl in Hl. destruct (decide (id = id')) as [<-|Hne].
      * by apply elem_of_user_ids.
      * rewrite lookup_insert_ne in Hl by done. by eapply Hv.
    + by rewrite bool_decide_eq_false_2.
  - by apply read_overlay_valid.
  - unfold read_all, bind, get_state.
    apply (for_each_invariant (λ st, overlay_valid (self st))); [|done].
    intros x st' Hv'. unfold bind.
    pose proof (read_overlay_valid st' x Hv') as Hr.
    by destruct (read x st') as [[?|?] ?].
  - unfold pop. unfold bind at 1. unfold get_state at 1.
    destruct (decide (id ∈ user_ids (self st))) as [Hin|Hni].
    2:{ by rewrite bool_decide_eq_false_2. }
    rewrite bool_decide_eq_true_2 by done. cbn [negb]. unfold bind at 1.
    assert (∀ st1, overlay_valid (self st1) →
              overlay_valid
                (self ((let! st2 := get_state in
                        match _loads (self st2) !! id with
                        | None => raise KeyError
                        | Some user_load =>
                            modify (set_loads (delete id)) >> ret user_load
                        end) st1).2)) as Hrest.
    { intros st1 Hv1. unfold bind, get_state.
      destruct (_loads (self st1) !! id) as [df|]; simpl; [|done].
      intros id' df' Hl. simpl in Hl. apply lookup_delete_Some in Hl as [_ Hl].
      by eapply Hv1. }
    unfold loads. destruct (_loads (self st) !! id) as [df|] eqn:E.
    + unfold ret at 1. by apply Hrest.
    + unfold bind at 1. pose proof (read_overlay_valid st id Hv) as Hr.
      destruct (read id st) as [[?|?] st1]; simpl in Hr; [|done].
      unfold ret at 1. by apply Hrest.
  - done.
Qed.

(** C9. Every key of the overlay is a user ID of the store: it is so when
    the object is made, the overlay being empty, and after every run of
    the operations of the cache (subscript, assignment, [read],
    [read_all], [pop], and also [close]), whether they return or raise. *)
Theorem overlay_valid_invariant (load_user_ids : HDFStore V → gset Z)
    (f : HDFStore V) h (log : list Z) (ops : list Op) :
  overlay_valid (self (run_ops {| self := __init__ load_user_ids f;
                                  heap := h; store_reads := log |} ops)).
Proof.
  assert (∀ st, overlay_valid (self st) → overlay_valid (self (run_ops st ops)))
    as Hrun.
  { unfold run_ops. induction ops as [|o ops IH]; intros st Hv; [done|].
    simpl. apply IH. by apply run_op_overlay_valid. }
  apply Hrun. intros id df Hl. simpl in Hl. by rewrite lookup_empty in Hl.
Qed.

(** What holds of an unknown user in all states. *)
Lemma getitem_unknown st id :
  id ∉ _user_ids (self st) → _loads (self st) !! id = None →
  __getitem__ id st = (Raise KeyError, st).
Proof. intros Hni Hc. rewrite getitem_uncached by done. by apply read_invalid. Qed.

(** C8 (amended). For a user ID that is not in the store's set of IDs,
    assignment, [pop] and [read] raise KeyError after looking at the set
    of IDs only, and a subscript raises KeyError whenever the ID has no
    entry in the overlay, as in every state whose overlay holds valid
    users only, hence in every state reached from a new object by the
    cache's operations.  In each case the state is unchanged: no read of
    the store is attempted. *)
Theorem unknown_identifier_raises st id (v : DataFrame) :
  id ∉ _user_ids (self st) →
  __setitem__ id v st = (Raise KeyError, st) ∧
  pop id st = (Raise KeyError, st) ∧
  read id st = (Raise KeyError, st) ∧
  (_loads (self st) !! id = None → __getitem__ id st = (Raise KeyError, st)) ∧
  (overlay_valid (self st) → __getitem__ id st = (Raise KeyError, st)).
Proof.
  intros Hni.
  assert (bool_decide (id ∈ user_ids (self st)) = false) as Hb.
  { apply bool_decide_eq_false_2. by rewrite elem_of_user_ids. }
  split; [|split; [|split; [|split]]].
  - unfold __setitem__, bind, get_state. by rewrite Hb.
  - unfold pop, bind, get_state. by rewrite Hb.
  - by apply read_invalid.
  - by apply getitem_unknown.
  - intros Hv. apply getitem_unknown; [done|].
    destruct (_loads (self st) !! id) as [df|] eqn:E; [|done].
    exfalso. by eapply Hni, Hv.
Qed.
End CacheClaims.

(** Where the addition of readings is commutative and associative, as
    exact arithmetic is and the addition of binary64 numbers is not. *)
Section Sums.
Context {V : Type} `{Numeric V}.
Hypothesis vadd_comm : ∀ a b : V, vadd a b = vadd b a.
Hypothesis vadd_assoc : ∀ a b c : V, vadd a (vadd b c) = vadd (vadd a b) c.

Lemma foldl_vadd_Permutation (vs vs' : list V) a :
  vs ≡ₚ vs' → foldl vadd a vs = foldl vadd a vs'.
Proof.
  intros Hp. revert a.
  induction Hp as [|x l l' _ IH|x y l|l l' l'' _ IH1 _ IH2]; intros a; simpl.
  - done.
  - apply IH.
  - f_equal. by rewrite <- !vadd_assoc, (vadd_comm y x).
  - by rewrite IH1.
Qed.

Lemma sum_at_values t (ss : list (TimeSeries V)) :
  sum_at t ss = match at_time t <$> ss with
                | [] => nan
                | v :: vs => foldl vadd v vs
                end.
Proof.
  destruct ss as [|s ss]; [done|]. rewrite fmap_cons. unfold sum_at.
  generalize (at_time t s). induction ss as [|s' ss IH]; intros v; [done|].
  rewrite fmap_cons. simpl. apply IH.
Qed.

(** The sum at a label does not depend on the order of the series. *)
Lemma sum_at_Permutation t (ss ss' : list (TimeSeries V)) :
  ss ≡ₚ ss' → sum_at t ss = sum_at t ss'.
Proof.
  intros Hp. rewrite !sum_at_values.
  assert (at_time t <$> ss ≡ₚ at_time t <$> ss') as Hv by (by apply fmap_Permutation).
  clear Hp. induction Hv as [|x l l' Hl IH|x y l|l l' l'' _ IH1 _ IH2].
  - done.
  - by apply foldl_vadd_Permutation.
  - simpl. f_equal. apply vadd_comm.
  - by rewrite IH1.
Qed.
End Sums.

Section AggregateClaims.
Context {V : Type} `{Numeric V}.
Implicit Types (st : State V) (s : TimeSeries V) (h : list (TimeSeries V))
  (df : DataFrame) (id : Z) (p : period) (ids : list Z).

(** C6 (amended). Let the store be ready, the users [ids] be valid and not
    none, and their series within the period share the index [idx], a
    label occurring once.  Then [total_load], given [ids] or any
    reordering [ids'] of them, returns a frame whose rows are the
    element-wise sum, aligned on the labels [idx], of the series that a
    subscript yields for each user, restricted to the period, the
    readings at a label being added from left to right in the order of
    the list given.  Where the addition of readings is commutative and
    associative the rows are those for [ids], whatever the order; for
    other readings, binary64 numbers among them, they are the sum in the
    order given. *)
Theorem total_load_sum_in_list_order st ids ids' p idx :
  frames_allocated st →
  store_ready (self st) →
  ids ≠ [] →
  Forall (λ id, id ∈ _user_ids (self st)) ids →
  NoDup idx →
  Forall (λ id, index (restrict p.1 p.2 (series_of st id)) = idx) ids →
  ids' ≡ₚ ids →
  ∃ total st',
    total_load ids' p st = (Ok total, st') ∧
    rows (heap st') total
      = aligned_sum idx ((λ id, restrict p.1 p.2 (series_of st id)) <$> ids') ∧
    ((∀ a b : V, vadd a b = vadd b a) →
     (∀ a b c : V, vadd a (vadd b c) = vadd (vadd a b) c) →
     rows (heap st') total
       = aligned_sum idx ((λ id, restrict p.1 p.2 (series_of st id)) <$> ids)).
Proof.
  intros Hfa Hready Hne Hvalid Hnd Hidx Hperm.
  symmetry in Hperm.
  pose proof (Permutation_Forall Hperm Hvalid) as Hvalid'.
  pose proof (Permutation_Forall Hperm Hidx) as Hidx'.
  destruct ids' as [|id0 rest].
  { apply Permutation_nil_r in Hperm. done. }
  destruct (total_load_ok p id0 rest st Hfa Hready Hvalid')
    as (total & st' & Hrun & Hrows & _).
  apply Forall_cons in Hidx' as [Hidx0 _].
  rewrite fold_add_rows_aligned_sum in Hrows by (by rewrite Hidx0).
  rewrite Hidx0 in Hrows.
  exists total, st'. split; [done|]. split; [exact Hrows|].
  intros Hcomm Hassoc. rewrite Hrows.
  unfold aligned_sum. apply list_fmap_ext. intros _ t _. f_equal.
  by rewrite (sum_at_Permutation Hcomm Hassoc t _ _
                (fmap_Permutation
                   (λ id, restrict p.1 p.2 (series_of st id)) _ _ Hperm)).
Qed.

(** C10. [total_load] does not write to any series of the overlay,
    whatever the users and the period and whether it returns or raises:
    the blocks that existed before the call are the same after it, every
    entry of the overlay is the same frame with the same rows, every
    entry that the call added holds the series of the store, so that
    every entry holds the rows a subscript would have yielded before the
    call; the store is untouched. *)
Theorem total_load_preserves_cached st ids p :
  frames_allocated st →
  (∃ new, heap (total_load ids p st).2 = heap st ++ new) ∧
  (∀ id df, _loads (self st) !! id = Some df →
     _loads (self (total_load ids p st).2) !! id = Some df ∧
     rows (heap (total_load ids p st).2) df = rows (heap st) df) ∧
  (∀ id df, _loads (self (total_load ids p st).2) !! id = Some df →
     rows (heap (total_load ids p st).2) df = series_of st id) ∧
  _store (self (total_load ids p st).2) = _store (self st).
Proof.
  intros Hfa. pose proof (total_load_grows ids p st) as Hg.
  split; [by destruct Hg as (_ & _ & ? & _)|]. split; [|split].
  - intros id df Hl. split.
    + destruct Hg as (_ & _ & _ & Hk & _). by apply Hk.
    + apply grows_rows; [done|]. by eapply Hfa.
  - intros id df Hl. rewrite <- (grows_series_of st _ id Hg Hfa).
    unfold series_of. by rewrite Hl.
  - by destruct Hg as (? & _).
Qed.

(** *** Division of the totals *)

Lemma total_load_allocated ids p st total st' :
  total_load ids p st = (Ok total, st') → (block total < length (heap st'))%nat.
Proof.
  unfold total_load. unfold bind at 1.
  destruct (comprehension _ ids st) as [[series|e] st1]; [|done].
  destruct series as [|first others]; [done|].
  unfold bind at 1. unfold df_copy, bind, get_state, new_frame, set_heap.
  destruct st1 as [ul h log]; cbn [heap self store_reads] in *.
  destruct (accumulate_run ul log h others (rows h first)
              {| block := length h; lower := None; upper := None |})
    as (x' & -> & _); [done..|].
  unfold ret. intros [= <- <-]. simpl. rewrite length_app. simpl. lia.
Qed.

Lemma totals_length ids (periods : list period) st totals st' :
  comprehension (λ p, total_load ids p) periods st = (Ok totals, st') →
  (length (heap st) ≤ length (heap st'))%nat.
Proof.
  revert st totals. induction periods as [|q periods IH]; intros st totals.
  - by intros [= <- <-].
  - cbn [comprehension]. unfold bind at 1.
    pose proof (total_load_grows ids q st) as Hg.
    destruct (total_load ids q st) as [[t|e] sta]; [|done].
    unfold bind at 1.
    destruct (comprehension _ periods sta) as [[ts|e] stb] eqn:Hc; [|done].
    unfold ret. intros [= <- <-]. apply grows_length in Hg. simpl in Hg.
    specialize (IH _ _ Hc). lia.
Qed.

Lemma totals_allocated ids (periods : list period) st totals st' :
  comprehension (λ p, total_load ids p) periods st = (Ok totals, st') →
  Forall (λ t, (block t < length (heap st'))%nat) totals.
Proof.
  revert st totals. induction periods as [|q periods IH]; intros st totals.
  - intros [= <- <-]. constructor.
  - cbn [comprehension]. unfold bind at 1.
    destruct (total_load ids q st) as [[t|e] sta] eqn:Ht; [|done].
    unfold bind at 1.
    destruct (comprehension _ periods sta) as [[ts|e] stb] eqn:Hc; [|done].
    unfold ret. intros [= <- <-]. constructor; [|by eapply IH].
    apply total_load_allocated in Ht. apply totals_length in Hc. lia.
Qed.

(** With the store ready and valid users, the totals of all periods are
    returned. *)
Lemma periods_totals_ok (periods : list period) id0 rest st :
  frames_allocated st → store_ready (self st) →
  Forall (λ id, id ∈ _user_ids (self st)) (id0 :: rest) →
  ∃ totals st',
    comprehension (λ p, total_load (id0 :: rest) p) periods st = (Ok totals, st').
Proof.
  revert st. induction periods as [|q periods IH]; intros st Hfa Hready Hvalid.
  - by exists [], st.
  - destruct (total_load_ok q id0 rest st Hfa Hready Hvalid)
      as (t & sta & Hrun & _).
    pose proof (total_load_grows (id0 :: rest) q st) as Hg.
    rewrite Hrun in Hg; simpl in Hg.
    destruct (IH sta) as (ts & stb & Hrest).
    { by eapply grows_frames_allocated. }
    { by eapply grows_store_ready. }
    { destruct Hg as (_ & -> & _). done. }
    exists (t :: ts), stb. cbn [comprehension]. unfold bind at 1.
    rewrite Hrun. unfold bind at 1. by rewrite Hrest.
Qed.

(** Dividing the totals allocates one frame for each, in order, and
    writes to no other block. *)
Lemma divide_run (n : Z) (totals : list DataFrame) st :
  ∃ means new,
    comprehension (λ l, df_div l n) totals st
    = (Ok means, {| self := self st; heap := heap st ++ new;
                    store_reads := store_reads st |}) ∧
    (Forall (λ t, (block t < length (heap st))%nat) totals →
     rows (heap st ++ new) <$> means
     = (λ t, div_rows (rows (heap st) t) n) <$> totals).
Proof.
  revert st. induction totals as [|t totals IH]; intros st.
  - exists [], []. rewrite app_nil_r. by destruct st.
  - destruct (IH (set_heap (λ h, h ++ [div_rows (rows (heap st) t) n]) st))
      as (means & new & Hrun & Hrows).
    cbn [set_heap heap self store_reads] in Hrun, Hrows.
    exists (fresh_frame st :: means), (div_rows (rows (heap st) t) n :: new).
    split.
    + cbn [comprehension]. unfold bind at 1.
      unfold df_div at 1, bind, get_state, new_frame.
      fold (fresh_frame st). unfold bind in Hrun. rewrite Hrun.
      unfold ret. by rewrite <- app_assoc.
    + intros Hall. apply Forall_cons in Hall as [Ht Hall].
      rewrite !fmap_cons. f_equal; [apply rows_fresh|].
      replace (heap st ++ div_rows (rows (heap st) t) n :: new)
        with ((heap st ++ [div_rows (rows (heap st) t) n]) ++ new)
        by (by rewrite <- app_assoc).
      rewrite Hrows.
      * apply list_fmap_ext. intros i t' Ht'.
        apply list_elem_of_lookup_2 in Ht'.
        rewrite Forall_forall in Hall. by rewrite rows_app_l by (by apply Hall).
      * eapply Forall_impl; [exact Hall|]. intros t' Hlt. simpl in *.
        rewrite length_app. simpl. lia.
Qed.
End AggregateClaims.

Section SubsetClaims.
Context {V : Type} `{Numeric V} `{NumPy}.

Lemma slice_to_length {A} (n : Z) (xs : list A) :
  Z.of_nat (length (slice_to n xs)) = drawn_size n (length xs).
Proof.
  unfold slice_to, drawn_size.
  destruct (Z.leb_spec 0 n); rewrite length_take; lia.
Qed.

Lemma slice_to_Forall {A} (P : A → Prop) (n : Z) (xs : list A) :
  Forall P xs → Forall P (slice_to n xs).
Proof. unfold slice_to. destruct (0 <=? n); apply Forall_take. Qed.

(** C5. With a seed given, the users drawn are a function of the seed,
    the count and the sequence of IDs alone: there is one outcome (the
    first [count] IDs of the seeded permutation, or ValueError for a seed
    that [RandomState] refuses) that the draw yields in every world,
    whatever the global generator, the heap and the cache hold; and the
    draw leaves the world, the global generator included, as it was.
    Any two calls with the same arguments therefore return the same
    sequence. *)
Theorem random_identifier_subset_deterministic (all_ids : list Z)
    (count seed : Z) :
  ∃ outcome,
    outcome = (if (0 <=? seed) && (seed <? 2 ^ 32)
               then Ok (slice_to count (permutation seed all_ids))
               else Raise ValueError) ∧
    ∀ w : World V,
      random_identifier_subset all_ids count (Some seed) w = (outcome, w).
Proof.
  eexists. split; [reflexivity|]. intros w.
  unfold random_identifier_subset, bind, ret.
  by destruct ((0 <=? seed) && (seed <? 2 ^ 32)).
Qed.

(** With a seed that [RandomState] takes, or none, the draw returns, and
    touches nothing but the global generator. *)
Lemma random_identifier_subset_run `{!NumPyLaws} (all_ids : list Z)
    (count : Z) (seed : option Z) (w : World V) :
  seed_accepted seed →
  ∃ seed' w2,
    random_identifier_subset all_ids count seed w
    = (Ok (slice_to count (permutation seed' all_ids)), w2) ∧
    ∀ ul, state_of ul w2 = state_of ul w.
Proof.
  intros Hseed. unfold random_identifier_subset. destruct seed as [s|].
  - exists s, w. unfold bind, ret. simpl in Hseed.
    destruct (Z.leb_spec 0 s); [|lia]. destruct (Z.ltb_spec s (2 ^ 32)); [|lia].
    done.
  - unfold bind, np_random_randint.
    pose proof (randint_range 1 (2 ^ 16) (np_random w) ltac:(lia)) as Hr.
    destruct (randint 1 (2 ^ 16) (np_random w)) as [s g]. simpl in Hr.
    eexists s, _.
    destruct (Z.leb_spec 0 s); [|lia]. destruct (Z.ltb_spec s (2 ^ 32)); [|lia].
    split; [reflexivity|]. done.
Qed.

(** What [mean_experiment_load_for_user_subset] returns, given what its
    three steps return. *)
Lemma mean_run (w : World V) (num_users : Z) (seed : option Z)
    loads w1 ids w2 totals st3 :
  tempfeeder_exp w = (Ok loads, w1) →
  random_identifier_subset (user_ids loads) num_users seed w1 = (Ok ids, w2) →
  total_load_in_experiment_periods ids (state_of loads w2) = (Ok totals, st3) →
  ∃ means w',
    mean_experiment_load_for_user_subset num_users seed w = (Ok means, w') ∧
    rows (w_heap w') <$> means
      = (λ t, div_rows (rows (heap st3) t) (Z.of_nat (length ids))) <$> totals ∧
    rows (w_heap w') <$> totals = rows (heap st3) <$> totals.
Proof.
  intros Htf Hsub Htot.
  pose proof (totals_allocated _ _ _ _ _ Htot) as Halloc.
  destruct (divide_run (Z.of_nat (length ids)) totals st3)
    as (means & new & Hrun & Hrows).
  exists means,
    {| data_without_dupes := data_without_dupes w2;
       _tempfeeder_exp := Some (self st3);
       np_random := np_random w2;
       w_heap := heap st3 ++ new;
       w_store_reads := store_reads st3 |}.
  split; [|split].
  - unfold mean_experiment_load_for_user_subset. unfold bind at 1.
    rewrite Htf. unfold bind at 1. rewrite Hsub.
    unfold on_object. unfold bind at 1. rewrite Htot. by rewrite Hrun.
  - by apply Hrows.
  - cbn [w_heap]. apply list_fmap_ext. intros i t Ht.
    apply list_elem_of_lookup_2 in Ht. rewrite Forall_forall in Halloc.
    apply rows_app_l. by apply Halloc.
Qed.

(** C4 (amended). Let the singleton [loads] be there with its store ready,
    the seed be one that [RandomState] takes (or none), and the count leave
    at least one user.  Then [mean_experiment_load_for_user_subset] draws
    the users [ids], computes their totals over the experiment periods and
    returns one new frame for each total, whose rows are the rows of the
    total divided element-wise by the number of users drawn; the totals
    keep their rows.  That number is the smaller of the count and the
    number of user IDs when the count is not negative (the number of IDs
    less the magnitude of the count when it is negative): it is the count
    only when the count does not exceed the number of IDs. *)
Theorem mean_divides_by_subset_size `{!NumPyLaws} (w : World V)
    (num_users : Z) (seed : option Z) loads w1 :
  tempfeeder_exp w = (Ok loads, w1) →
  frames_allocated (state_of loads w1) →
  store_ready loads →
  seed_accepted seed →
  0 < drawn_size num_users (size (_user_ids loads)) →
  ∃ ids w2 totals st3 means w',
    random_identifier_subset (user_ids loads) num_users seed w1 = (Ok ids, w2) ∧
    Z.of_nat (length ids) = drawn_size num_users (size (_user_ids loads)) ∧
    total_load_in_experiment_periods ids (state_of loads w2) = (Ok totals, st3) ∧
    mean_experiment_load_for_user_subset num_users seed w = (Ok means, w') ∧
    rows (w_heap w') <$> means
      = (λ t, div_rows (rows (heap st3) t)
                (drawn_size num_users (size (_user_ids loads)))) <$> totals ∧
    rows (w_heap w') <$> totals = rows (heap st3) <$> totals.
Proof.
  intros Htf Hfa Hready Hseed Hk.
  destruct (random_identifier_subset_run (user_ids loads) num_users seed w1 Hseed)
    as (seed' & w2 & Hsub & Hsame).
  set (ids := slice_to num_users (permutation seed' (user_ids loads))) in *.
  assert (Z.of_nat (length ids) = drawn_size num_users (size (_user_ids loads)))
    as Hlen.
  { unfold ids. rewrite slice_to_length.
    by rewrite (Permutation_length (permutation_Permutation seed' (user_ids loads))). }
  assert (Forall (λ id, id ∈ _user_ids loads) ids) as Hvalid.
  { apply slice_to_Forall.
    eapply Permutation_Forall; [symmetry; apply permutation_Permutation|].
    apply Forall_forall. intros id Hin. by apply elem_of_user_ids. }
  destruct ids as [|id0 rest] eqn:Hids; [simpl in Hlen; lia|].
  destruct (periods_totals_ok experiment_periods id0 rest (state_of loads w1))
    as (totals & st3 & Htot); [done..|].
  rewrite <- (Hsame loads) in Htot.
  destruct (mean_run w num_users seed loads w1 (id0 :: rest) w2 totals st3)
    as (means & w' & Hrun & Hrows & Hkeep); [done..|].
  exists (id0 :: rest), w2, totals, st3, means, w'.
  rewrite <- Hlen. by repeat split.
Qed.
End SubsetClaims.

(** * Further properties of the cache *)

Section CacheExtras.
Context {V : Type} `{Numeric V}.
Implicit Types (st : State V) (s : TimeSeries V) (h : list (TimeSeries V))
  (df : DataFrame) (id user_id : Z).

(** X1. [pop] of a valid user that is cached, or that the open store has a
    table for, returns the frame a subscript would have returned (it is
    read first when it is not cached, by one lookup in the store).
    Afterwards the user has no entry in the overlay, the other entries are
    as before, the user is still a user ID, and no block that existed is
    written. *)
Theorem pop_returns_and_evicts st id :
  id ∈ _user_ids (self st) →
  is_Some (_loads (self st) !! id) ∨
    (is_open (_store (self st)) = true ∧
     is_Some (id_nodes (_store (self st)) !! id)) →
  ∃ df st',
    pop id st = (Ok df, st') ∧
    rows (heap st') df = series_of st id ∧
    _loads (self st') = delete id (_loads (self st)) ∧
    _user_ids (self st') = _user_ids (self st) ∧
    store_reads st'
      = store_reads st ++ match _loads (self st) !! id with
                          | Some _ => []
                          | None => [id]
                          end ∧
    ∃ new, heap st' = heap st ++ new.
Proof.
  intros Hin Hcase.
  assert (bool_decide (id ∈ user_ids (self st)) = true) as Hb
    by (apply bool_decide_eq_true_2; by rewrite elem_of_user_ids).
  unfold series_of. destruct (_loads (self st) !! id) as [df|] eqn:E.
  - exists df, (set_loads (delete id) st).
    split; [|split; [done|split; [done|split; [done|split]]]].
    + unfold pop. unfold bind at 1. unfold get_state at 1. rewrite Hb.
      cbn [negb]. unfold loads. rewrite E. unfold bind, ret, get_state.
      by rewrite E.
    + simpl. by rewrite app_nil_r.
    + exists []. simpl. by rewrite app_nil_r.
  - destruct Hcase as [[? ?]|[Hop [s Hs]]]; [done|].
    exists (fresh_frame st),
      (set_loads (delete id) (after_read id s st)).
    split; [|split; [|split; [|split; [done|split; [done|]]]]].
    + unfold pop. unfold bind at 1. unfold get_state at 1. rewrite Hb.
      cbn [negb]. unfold loads. rewrite E. unfold bind at 1. unfold bind at 1.
      rewrite (read_ok _ _ s) by done. unfold ret at 1.
      unfold bind, get_state, modify, ret. simpl.
      by rewrite lookup_insert_eq.
    + rewrite Hs. exact (rows_fresh st s []).
    + simpl. rewrite delete_insert_eq. by rewrite delete_id.
    + by exists [s].
Qed.

(** X2. An assignment is forgotten by [pop]: after [cache[id] = v] and
    [cache.pop(id)], which returns [v] itself without reading the store, a
    subscript reads the store again (one lookup) and returns a frame
    holding the stored series, whatever [v] held. *)
Theorem setitem_pop_getitem st id (v : DataFrame) s :
  id ∈ _user_ids (self st) →
  is_open (_store (self st)) = true →
  id_nodes (_store (self st)) !! id = Some s →
  ∃ st1 st2 df st3,
    __setitem__ id v st = (Ok (), st1) ∧
    pop id st1 = (Ok v, st2) ∧
    store_reads st2 = store_reads st ∧
    _loads (self st2) !! id = None ∧
    __getitem__ id st2 = (Ok df, st3) ∧
    rows (heap st3) df = s ∧
    store_reads st3 = store_reads st ++ [id].
Proof.
  intros Hin Hop Hs.
  assert (bool_decide (id ∈ user_ids (self st)) = true) as Hb
    by (apply bool_decide_eq_true_2; by rewrite elem_of_user_ids).
  set (st1 := set_loads <[id := v]> st).
  set (st2 := set_loads (delete id) st1).
  exists st1, st2, (fresh_frame st2), (after_read id s st2).
  assert (_loads (self st2) !! id = None) as Hgone
    by (simpl; apply lookup_delete_eq).
  split; [|split; [|split; [done|split; [done|split; [|split; [|done]]]]]].
  - unfold __setitem__, bind, get_state. by rewrite Hb.
  - unfold pop. unfold bind at 1. unfold get_state at 1.
    change (user_ids (self st1)) with (user_ids (self st)). rewrite Hb.
    cbn [negb]. unfold loads.
    assert (_loads (self st1) !! id = Some v) as E
      by (simpl; apply lookup_insert_eq).
    rewrite E. unfold bind, ret, get_state. by rewrite E.
  - rewrite (getitem_uncached _ _ Hgone). by apply read_ok.
  - exact (rows_fresh st2 s []).
Qed.

(** X3. An assignment is seen at once and costs nothing: after
    [cache[id] = v] for a valid user, a subscript returns [v] itself; the
    store is not read, no block is allocated or written, and the entries
    of the other users are as before. *)
Theorem setitem_getitem st id (v : DataFrame) :
  id ∈ _user_ids (self st) →
  ∃ st1,
    __setitem__ id v st = (Ok (), st1) ∧
    __getitem__ id st1 = (Ok v, st1) ∧
    heap st1 = heap st ∧
    store_reads st1 = store_reads st ∧
    _store (self st1) = _store (self st) ∧
    ∀ id', id' ≠ id → _loads (self st1) !! id' = _loads (self st) !! id'.
Proof.
  intros Hin. exists (set_loads <[id := v]> st).
  split; [|split; [|split; [done|split; [done|split; [done|]]]]].
  - unfold __setitem__, bind, get_state.
    by rewrite bool_decide_eq_true_2 by (by rewrite elem_of_user_ids).
  - apply getitem_cached. simpl. apply lookup_insert_eq.
  - intros id' Hne. simpl. by rewrite lookup_insert_ne.
Qed.

(** *** [read_all] *)

Lemma read_many_run (ids : list Z) st :
  store_ready (self st) →
  Forall (λ id, id ∈ _user_ids (self st)) ids →
  ∃ st',
    for_each ids (λ user_id, read user_id >> ret ()) st = (Ok (), st') ∧
    _store (self st') = _store (self st) ∧
    _user_ids (self st') = _user_ids (self st) ∧
    heap st' = heap st ++ (stored (self st) <$> ids) ∧
    store_reads st' = store_reads st ++ ids ∧
    (∀ id, id ∉ ids → _loads (self st') !! id = _loads (self st) !! id) ∧
    (∀ id, id ∈ ids →
       ∃ df, _loads (self st') !! id = Some df ∧
             (length (heap st) ≤ block df)%nat ∧
             rows (heap st') df = stored (self st) id).
Proof.
  revert st. induction ids as [|id ids IH]; intros st Hready Hvalid.
  - exists st. rewrite !app_nil_r. repeat split; try done.
    intros id Hin. by apply elem_of_nil in Hin.
  - apply Forall_cons in Hvalid as [Hin Hvalid].
    destruct Hready as [Hop Hnodes]. destruct (Hnodes _ Hin) as [s Hs].
    set (st1 := after_read id s st).
    destruct (IH st1) as (st' & Hrun & Hst & Hu & Hh & Hlog & Hout & Hin');
      [done|done|].
    assert (stored (self st) id = s) as Hstored by (unfold stored; by rewrite Hs).
    exists st'. split; [|split; [done|split; [done|split; [|split; [|split]]]]].
    + cbn [for_each]. unfold bind at 1. unfold bind at 1.
      rewrite (read_ok _ _ s) by done. unfold ret at 1. exact Hrun.
    + rewrite Hh. simpl. rewrite <- app_assoc. simpl. by rewrite Hstored.
    + rewrite Hlog. simpl. by rewrite <- app_assoc.
    + intros id' Hni. apply not_elem_of_cons in Hni as [Hne Hni].
      rewrite (Hout _ Hni). simpl. by rewrite lookup_insert_ne.
    + intros id' Hel.
      destruct (decide (id' ∈ ids)) as [Hel'|Hni].
      * destruct (Hin' _ Hel') as (df & Hl & Hge & Hrows).
        exists df. split; [done|]. split; [|done].
        simpl in Hge. rewrite length_app in Hge. lia.
      * apply elem_of_cons in Hel as [->|Hel]; [|done].
        exists (fresh_frame st). split; [|split; [done|]].
        -- rewrite (Hout _ Hni). simpl. apply lookup_insert_eq.
        -- rewrite Hh. simpl. rewrite <- app_assoc. simpl.
           rewrite Hstored. apply rows_fresh.
Qed.

(** X4. With the store open and holding a table for every user ID,
    [read_all] returns, looks every user up in the store exactly once, in
    the order of [user_ids], whether the user was cached or not, and leaves
    for every user ID an entry in a block of its own, allocated by the
    call, that holds the stored series: values assigned before are
    overwritten.  Entries under other keys and the blocks that existed
    are untouched. *)
Theorem read_all_loads_every_user st :
  store_ready (self st) →
  ∃ st',
    read_all st = (Ok (), st') ∧
    store_reads st' = store_reads st ++ user_ids (self st) ∧
    heap st' = heap st ++ (stored (self st) <$> user_ids (self st)) ∧
    (∀ id, id ∈ _user_ids (self st) →
       ∃ df, _loads (self st') !! id = Some df ∧
             (length (heap st) ≤ block df)%nat ∧
             rows (heap st') df = stored (self st) id) ∧
    (∀ id, id ∉ _user_ids (self st) →
       _loads (self st') !! id = _loads (self st) !! id).
Proof.
  intros Hready.
  destruct (read_many_run (user_ids (self st)) st Hready)
    as (st' & Hrun & _ & _ & Hh & Hlog & Hout & Hin).
  { apply Forall_forall. intros id Hel. by apply elem_of_user_ids. }
  exists st'. split; [|split; [done|split; [done|split]]].
  - unfold read_all, bind, get_state. exact Hrun.
  - intros id Hel. apply Hin. by apply elem_of_user_ids.
  - intros id Hni. apply Hout. by rewrite elem_of_user_ids.
Qed.
(** *** Nothing writes to the store *)

Lemma same_data_refl st : same_data st st.
Proof. by split. Qed.

Lemma same_data_trans st1 st2 st3 :
  same_data st1 st2 → same_data st2 st3 → same_data st1 st3.
Proof. intros [? ?] [? ?]. split; congruence. Qed.

Lemma read_same_data st id : same_data st (read id st).2.
Proof.
  destruct (read_state st id) as [-> | [-> | (s & Hin & ->)]]; by split.
Qed.

Lemma run_op_same_data st (o : Op) : same_data st (run_op st o).
Proof.
  destruct o as [id|id v|id| |id|]; simpl.
  - destruct (_loads (self st) !! id) as [df|] eqn:E.
    + rewrite (getitem_cached _ _ _ E). apply same_data_refl.
    + rewrite (getitem_uncached _ _ E). apply read_same_data.
  - unfold __setitem__, bind, get_state.
    destruct (bool_decide (id ∈ user_ids (self st))); by split.
  - apply read_same_data.
  - unfold read_all, bind, get_state.
    apply (for_each_invariant (λ st', same_data st st'));
      [|apply same_data_refl].
    intros x st' Hs. unfold bind.
    pose proof (read_same_data st' x) as Hr.
    destruct (read x st') as [[?|?] ?]; simpl in *; by eapply same_data_trans.
  - unfold pop. unfold bind at 1. unfold get_state at 1.
    destruct (bool_decide (id ∈ user_ids (self st))); [|by split].
    cbn [negb]. unfold bind at 1.
    assert (∀ st1, same_data st st1 →
              same_data st
                ((let! st2 := get_state in
                  match _loads (self st2) !! id with
                  | None => raise KeyError
                  | Some user_load =>
                      modify (set_loads (delete id)) >> ret user_load
                  end) st1).2) as Hrest.
    { intros st1 Hs. unfold bind, get_state.
      destruct (_loads (self st1) !! id) as [df|]; simpl; [|done].
      destruct Hs. by split. }
    unfold loads. destruct (_loads (self st) !! id) as [df|] eqn:E.
    + unfold ret at 1. apply Hrest, same_data_refl.
    + unfold bind at 1. pose proof (read_same_data st id) as Hr.
      destruct (read id st) as [[?|?] st1]; simpl in Hr; [|done].
      unfold ret at 1. by apply Hrest.
  - by split.
Qed.

(** X5. No operation of the cache (subscript, assignment, [read],
    [read_all], [pop], [close]) writes to the tables of the store or
    changes the set of user IDs, whether it returns or raises: after any
    run of them the tables, the user IDs and [len] of the object are what
    they were; [pop] in particular removes no user ID. *)
Theorem run_ops_keeps_store_and_user_ids st (ops : list Op) :
  store_tables (_store (self (run_ops st ops)))
    = store_tables (_store (self st)) ∧
  _user_ids (self (run_ops st ops)) = _user_ids (self st) ∧
  __len__ (self (run_ops st ops)) = __len__ (self st).
Proof.
  assert (same_data st (run_ops st ops)) as [Hu Ht].
  { unfold run_ops. revert st. induction ops as [|o ops IH]; intros st.
    - apply same_data_refl.
    - simpl. eapply same_data_trans; [apply run_op_same_data | apply IH]. }
  split; [done|]. split; [done|]. unfold __len__, user_ids. by rewrite Hu.
Qed.

(** X6. After [close] the cache serves what it holds and nothing else.
    For a valid user: [read] raises ClosedFileError and leaves the overlay
    as it is; a cached user is still returned by a subscript and by [pop];
    a user that is not cached makes both raise ClosedFileError, the overlay
    staying as it is. *)
Theorem closed_store_serves_cached_only st id :
  id ∈ _user_ids (self st) →
  ∃ st',
    close st = (Ok (), st') ∧
    _loads (self st') = _loads (self st) ∧
    (read id st').1 = Raise ClosedFileError ∧
    _loads (self (read id st').2) = _loads (self st) ∧
    match _loads (self st) !! id with
    | Some df =>
        __getitem__ id st' = (Ok df, st') ∧
        pop id st' = (Ok df, set_loads (delete id) st')
    | None =>
        (__getitem__ id st').1 = Raise ClosedFileError ∧
        (pop id st').1 = Raise ClosedFileError ∧
        _loads (self (pop id st').2) = _loads (self st)
    end.
Proof.
  intros Hin. set (st' := set_store close_store st). exists st'.
  assert (id ∈ _user_ids (self st')) as Hin' by done.
  assert (is_open (_store (self st')) = false) as Hcl by done.
  assert (bool_decide (id ∈ user_ids (self st')) = true) as Hb
    by (apply bool_decide_eq_true_2; by rewrite elem_of_user_ids).
  split; [done|]. split; [done|].
  rewrite (read_closed st' id Hin' Hcl). split; [done|]. split; [done|].
  destruct (_loads (self st) !! id) as [df|] eqn:E.
  - assert (_loads (self st') !! id = Some df) as E' by done. split.
    + by apply getitem_cached.
    + unfold pop. unfold bind at 1. unfold get_state at 1. rewrite Hb.
      cbn [negb]. unfold loads. rewrite E'. unfold bind, ret, get_state.
      by rewrite E'.
  - assert (_loads (self st') !! id = None) as E' by done.
    rewrite (getitem_uncached _ _ E'), (read_closed st' id Hin' Hcl).
    split; [done|].
    assert (pop id st' = (Raise ClosedFileError, log_read id st')) as ->;
      [|by split].
    unfold pop. unfold bind at 1. unfold get_state at 1. rewrite Hb.
    cbn [negb]. unfold loads. rewrite E'. unfold bind at 1. unfold bind at 1.
    by rewrite (read_closed st' id Hin' Hcl).
Qed.
End CacheExtras.

(** * Further properties of the aggregates *)

Section AggregateExtras.
Context {V : Type} `{Numeric V}.
Implicit Types (st : State V) (s : TimeSeries V) (h : list (TimeSeries V))
  (df : DataFrame) (id : Z) (p : period) (ids : list Z).

Local Abbreviation load_slice p :=
  (λ user, let! l := __getitem__ user in ret (df_slice l p.1 p.2)).

(** How a call of [total_load] that returns has run. *)
Lemma total_load_shape ids p st total st' :
  total_load ids p st = (Ok total, st') →
  ∃ series st1 x,
    comprehension (load_slice p) ids st = (Ok series, st1) ∧
    total = fresh_frame st1 ∧
    self st' = self st1 ∧
    store_reads st' = store_reads st1 ∧
    heap st' = heap st1 ++ [x].
Proof.
  unfold total_load. unfold bind at 1.
  destruct (comprehension _ ids st) as [[series|e] st1]; [|done].
  destruct series as [|first others]; [done|].
  unfold bind at 1. unfold df_copy, bind, get_state, new_frame, set_heap.
  destruct st1 as [ul h log]; cbn [heap self store_reads] in *.
  destruct (accumulate_run ul log h others (rows h first)
              {| block := length h; lower := None; upper := None |})
    as (x' & -> & _); [done..|].
  unfold ret. intros [= <- <-].
  by exists (first :: others), {| self := ul; heap := h; store_reads := log |}, x'.
Qed.

Lemma read_Ok_cached st id l sta :
  read id st = (Ok l, sta) → _loads (self sta) !! id = Some l.
Proof.
  destruct (decide (id ∈ _user_ids (self st))) as [Hin|Hni].
  2:{ by rewrite read_invalid. }
  destruct (is_open (_store (self st))) eqn:Hop.
  2:{ by rewrite read_closed. }
  destruct (id_nodes (_store (self st)) !! id) as [s|] eqn:Hs.
  2:{ by rewrite read_missing. }
  rewrite (read_ok _ _ s) by done. intros [= <- <-]. simpl.
  apply lookup_insert_eq.
Qed.

Lemma getitem_Ok_cached st id l sta :
  __getitem__ id st = (Ok l, sta) → _loads (self sta) !! id = Some l.
Proof.
  destruct (_loads (self st) !! id) as [df|] eqn:E.
  - rewrite (getitem_cached _ _ _ E). by intros [= <- <-].
  - rewrite (getitem_uncached _ _ E). apply read_Ok_cached.
Qed.

Lemma comprehension_caches p ids st series st1 :
  comprehension (load_slice p) ids st = (Ok series, st1) →
  Forall (λ id, is_Some (_loads (self st1) !! id)) ids.
Proof.
  revert st series. induction ids as [|id ids IH]; intros st series; [done|].
  cbn [comprehension]. unfold bind at 1. unfold bind at 1.
  destruct (__getitem__ id st) as [[l|e] sta] eqn:Hget; [|done].
  unfold ret at 1. cbv beta iota. unfold bind at 1.
  destruct (comprehension _ ids sta) as [[ys|e] stb] eqn:Hc; [|done].
  unfold ret. intros [= <- <-]. constructor; [|by eapply IH].
  apply getitem_Ok_cached in Hget.
  pose proof (comprehension_grows p ids sta) as Hg. rewrite Hc in Hg.
  destruct Hg as (_ & _ & _ & Hk & _). eexists. by apply Hk.
Qed.

Lemma comprehension_of_cached p ids st :
  Forall (λ id, is_Some (_loads (self st) !! id)) ids →
  ∃ series,
    comprehension (load_slice p) ids st = (Ok series, st) ∧
    length series = length ids.
Proof.
  induction ids as [|id ids IH]; intros Hall.
  - by exists [].
  - apply Forall_cons in Hall as [[df Hdf] Hall].
    destruct (IH Hall) as (series & Hrun & Hlen).
    exists (df_slice df p.1 p.2 :: series). split; [|simpl; by rewrite Hlen].
    cbn [comprehension]. unfold bind at 1. unfold bind at 1.
    rewrite (getitem_cached _ _ _ Hdf). unfold ret at 1. cbv beta iota.
    unfold bind at 1. by rewrite Hrun.
Qed.

(** X7. Over users that are all cached, [total_load] returns without
    looking anything up in the store, be the store open or closed and the
    users valid or not: the object (its overlay included) and the log of
    store reads are as before, and the one block allocated is that of the
    total. *)
Theorem total_load_of_cached_reads_nothing ids p st :
  ids ≠ [] →
  Forall (λ id, is_Some (_loads (self st) !! id)) ids →
  ∃ total st' x,
    total_load ids p st = (Ok total, st') ∧
    self st' = self st ∧
    store_reads st' = store_reads st ∧
    heap st' = heap st ++ [x] ∧
    total = fresh_frame st.
Proof.
  intros Hne Hall.
  destruct (comprehension_of_cached p ids st Hall) as (series & Hrun & Hlen).
  destruct series as [|first others].
  { destruct ids; [done|discriminate]. }
  destruct st as [ul h log].
  destruct (accumulate_run ul log h others (rows h first)
              {| block := length h; lower := None; upper := None |})
    as (x' & Hloop & _); [done..|].
  exists {| block := length h; lower := None; upper := None |},
         {| self := ul; heap := h ++ [x']; store_reads := log |}, x'.
  split; [|done].
  unfold total_load. unfold bind at 1. rewrite Hrun.
  unfold bind at 1. unfold df_copy, bind, get_state, new_frame, set_heap.
  cbn [heap self store_reads]. by rewrite Hloop.
Qed.

(** X8. When [total_load] returns, every user it was given is cached. *)
Theorem total_load_caches_its_users ids p st total st' :
  total_load ids p st = (Ok total, st') →
  Forall (λ id, is_Some (_loads (self st') !! id)) ids.
Proof.
  intros Hrun.
  destruct (total_load_shape _ _ _ _ _ Hrun)
    as (series & st1 & x & Hc & _ & Hself & _).
  rewrite Hself. by eapply comprehension_caches.
Qed.

(** X9. The frame that [total_load] returns is new: it owns a block
    allocated by the call, with an open window, and no entry of the
    overlay is a window on that block; writing to the total cannot reach
    the cache. *)
Theorem total_load_result_is_new ids p st total st' :
  frames_allocated st →
  total_load ids p st = (Ok total, st') →
  lower total = None ∧ upper total = None ∧
  (length (heap st) ≤ block total < length (heap st'))%nat ∧
  ∀ id df, _loads (self st') !! id = Some df → block df ≠ block total.
Proof.
  intros Hfa Hrun.
  destruct (total_load_shape _ _ _ _ _ Hrun)
    as (series & st1 & x & Hc & -> & Hself & _ & Hheap).
  pose proof (comprehension_grows p ids st) as Hg. rewrite Hc in Hg.
  simpl in Hg. pose proof (grows_frames_allocated _ _ Hg Hfa) as Hfa1.
  split; [done|]. split; [done|]. split.
  - simpl. rewrite Hheap, length_app. simpl.
    pose proof (grows_length _ _ Hg). lia.
  - intros id df Hl. rewrite Hself in Hl. specialize (Hfa1 _ _ Hl).
    simpl. lia.
Qed.

Lemma grows_overlay_valid st st' :
  grows st st' → overlay_valid (self st) → overlay_valid (self st').
Proof.
  intros (_ & Hu & _ & Hk & Hn) Hv id df Hl. rewrite Hu.
  destruct (_loads (self st) !! id) as [df0|] eqn:E.
  - by eapply Hv.
  - by destruct (Hn _ _ Hl E) as (? & _).
Qed.

Lemma getitem_valid_Ok st id :
  store_ready (self st) → id ∈ _user_ids (self st) →
  ∃ l sta, __getitem__ id st = (Ok l, sta).
Proof.
  intros [Hop Hnodes] Hin.
  destruct (_loads (self st) !! id) as [df|] eqn:E.
  - exists df, st. by apply getitem_cached.
  - destruct (Hnodes _ Hin) as [s Hs]. eexists _, _.
    rewrite (getitem_uncached _ _ E). by apply read_ok.
Qed.

(** X10. With the store ready and an overlay of valid users, [total_load]
    raises KeyError as soon as one of the users it is given is not a user
    ID of the store, wherever it stands in the list: no total is
    returned. *)
Theorem total_load_unknown_user_raises ids p st bad :
  store_ready (self st) →
  overlay_valid (self st) →
  bad ∈ ids →
  bad ∉ _user_ids (self st) →
  (total_load ids p st).1 = Raise KeyError.
Proof.
  intros Hready Hv Hbad Hni.
  assert ((comprehension (load_slice p) ids st).1 = Raise KeyError) as Hc.
  { revert st Hready Hv Hni. induction ids as [|id ids IH];
      intros st Hready Hv Hni; [by apply elem_of_nil in Hbad|].
    cbn [comprehension]. unfold bind at 1. unfold bind at 1.
    destruct (decide (id ∈ _user_ids (self st))) as [Hin|Hout].
    - destruct (getitem_valid_Ok st id Hready Hin) as (l & sta & Hget).
      pose proof (getitem_grows st id) as Hg. rewrite Hget in Hg |- *.
      simpl in Hg. unfold ret at 1. cbv beta iota. unfold bind at 1.
      assert (bad ∈ ids) as Hbad'.
      { apply elem_of_cons in Hbad as [->|?]; [done|done]. }
      specialize (IH Hbad' sta (grows_store_ready _ _ Hg Hready)
                    (grows_overlay_valid _ _ Hg Hv)).
      destruct Hg as (_ & Hu & _). rewrite Hu in IH. specialize (IH Hni).
      by destruct (comprehension _ ids sta) as [[ys|e] stb]; simpl in IH;
        [discriminate|injection IH as ->].
    - rewrite getitem_unknown; [done|done|].
      destruct (_loads (self st) !! id) as [df|] eqn:E; [|done].
      exfalso. by eapply Hout, Hv. }
  unfold total_load. unfold bind at 1.
  destruct (comprehension _ ids st) as [[series|e] st1]; simpl in Hc;
    [discriminate|by injection Hc as ->].
Qed.

Lemma totals_grows ids (periods : list period) st :
  grows st (comprehension (λ p, total_load ids p) periods st).2.
Proof.
  revert st. induction periods as [|q periods IH]; intros st.
  - apply grows_refl.
  - cbn [comprehension]. unfold bind at 1.
    pose proof (total_load_grows ids q st) as Hg.
    destruct (total_load ids q st) as [[t|e] sta]; simpl in Hg; [|done].
    unfold bind at 1. specialize (IH sta).
    destruct (comprehension _ periods sta) as [[ts|e] stb]; simpl in *;
      by eapply grows_trans.
Qed.

(** The totals of all periods are those of the state the call starts in,
    though each period is computed in the state the one before left. *)
Lemma periods_totals_rows (periods : list period) id0 rest st :
  frames_allocated st → store_ready (self st) →
  Forall (λ id, id ∈ _user_ids (self st)) (id0 :: rest) →
  ∃ totals st',
    comprehension (λ p, total_load (id0 :: rest) p) periods st
    = (Ok totals, st') ∧
    rows (heap st') <$> totals = period_total st (id0 :: rest) <$> periods.
Proof.
  revert st. induction periods as [|q periods IH]; intros st Hfa Hready Hvalid.
  - by exists [], st.
  - destruct (total_load_ok q id0 rest st Hfa Hready Hvalid)
      as (t & sta & Hrun & Hrows & Hlt).
    pose proof (total_load_grows (id0 :: rest) q st) as Hg.
    rewrite Hrun in Hg; simpl in Hg.
    destruct (IH sta) as (ts & stb & Hrest & Hrs).
    { by eapply grows_frames_allocated. }
    { by eapply grows_store_ready. }
    { destruct Hg as (_ & -> & _). done. }
    pose proof (totals_grows (id0 :: rest) periods sta) as Hg'.
    rewrite Hrest in Hg'; simpl in Hg'.
    exists (t :: ts), stb. split.
    + cbn [comprehension]. unfold bind at 1.
      rewrite Hrun. unfold bind at 1. by rewrite Hrest.
    + rewrite !fmap_cons. f_equal.
      * by rewrite (grows_rows sta stb).
      * rewrite Hrs. apply list_fmap_ext. intros _ q' _. unfold period_total.
        rewrite (grows_series_of st sta id0 Hg Hfa). f_equal.
        apply list_fmap_ext. intros _ id' _.
        by rewrite (grows_series_of st sta id' Hg Hfa).
Qed.

Lemma index_foldl_add_rows (others : list (TimeSeries V)) (a : TimeSeries V) :
  index (foldl add_rows a others) = index a.
Proof.
  revert a. induction others as [|o others IH]; intros a; [done|].
  simpl. by rewrite IH, index_add_rows.
Qed.

Lemma index_restrict lo hi s t :
  t ∈ index (restrict lo hi s) → in_period lo hi t = true.
Proof.
  unfold index, restrict. intros Hin.
  apply list_elem_of_fmap in Hin as ([t' v] & -> & Hin).
  apply list_elem_of_In, filter_In in Hin as [_ Hp]. exact Hp.
Qed.

(** X11. With the store ready and valid users, not none,
    [total_load_in_experiment_periods] returns two totals, the first for
    2004-02-01 to 2005-07-01 and the second for 2005-10-01 to 2006-10-01.
    Each holds the fold of [+=] over the series that a subscript yielded
    before the call, restricted to its period, although the second is
    computed after the first has loaded the users; and every label of the
    first total is earlier than every label of the second. *)
Theorem total_load_in_experiment_periods_totals ids st :
  frames_allocated st →
  store_ready (self st) →
  ids ≠ [] →
  Forall (λ id, id ∈ _user_ids (self st)) ids →
  ∃ total1 total2 st',
    total_load_in_experiment_periods ids st = (Ok [total1; total2], st') ∧
    rows (heap st') total1
      = period_total st ids
          (Some (strptime 2004 2 1 0 0), Some (strptime 2005 7 1 0 0)) ∧
    rows (heap st') total2
      = period_total st ids
          (Some (strptime 2005 10 1 0 0), Some (strptime 2006 10 1 0 0)) ∧
    ∀ t1 t2, t1 ∈ index (rows (heap st') total1) →
             t2 ∈ index (rows (heap st') total2) → t1 < t2.
Proof.
  intros Hfa Hready Hne Hvalid. destruct ids as [|id0 rest]; [done|].
  destruct (periods_totals_rows experiment_periods id0 rest st Hfa Hready Hvalid)
    as (totals & st' & Hrun & Hrows).
  destruct totals as [|total1 [|total2 [|? ?]]]; try discriminate.
  injection Hrows as Hr1 Hr2.
  exists total1, total2, st'. split; [exact Hrun|]. split; [exact Hr1|].
  split; [exact Hr2|]. intros t1 t2. rewrite Hr1, Hr2. unfold period_total.
  rewrite !index_foldl_add_rows. intros H1 H2.
  apply index_restrict in H1. apply index_restrict in H2.
  unfold in_period in H1, H2. simpl in H1, H2.
  apply andb_true_iff in H1 as [_ H1]. apply andb_true_iff in H2 as [H2 _].
  apply Z.leb_le in H1. apply Z.leb_le in H2.
  change (strptime 2005 7 1 0 0) with 1120176000 in H1.
  change (strptime 2005 10 1 0 0) with 1128124800 in H2. lia.
Qed.
End AggregateExtras.

Section NSK129Extras.
Context {V : Type} `{Numeric V}.
Implicit Types (st : State V) (s : TimeSeries V) (h : list (TimeSeries V))
  (df : DataFrame) (id : Z).

(** The loop of [NSK129]: every user is read from the store, and the sums
    go into the block of [total]. *)
Lemma accumulate_reads_run (others : list Z) st h0 x tl (total : DataFrame) :
  heap st = h0 ++ x :: tl →
  block total = length h0 → lower total = None → upper total = None →
  store_ready (self st) →
  Forall (λ id, id ∈ _user_ids (self st)) others →
  ∃ st',
    accumulate_reads total others st = (Ok (), st') ∧
    heap st' = h0 ++ foldl add_rows x (stored (self st) <$> others)
                  :: tl ++ (stored (self st) <$> others) ∧
    store_reads st' = store_reads st ++ others ∧
    (∀ id, id ∉ others → _loads (self st') !! id = _loads (self st) !! id).
Proof.
  intros Hheap Hb Hl Hu. revert st x tl Hheap.
  induction others as [|id others IH]; intros st x tl Hheap Hready Hvalid.
  - exists st. rewrite !app_nil_r. by repeat split.
  - apply Forall_cons in Hvalid as [Hin Hvalid].
    pose proof Hready as [Hop Hnodes]. destruct (Hnodes _ Hin) as [s Hs].
    assert (stored (self st) id = s) as Hstored by (unfold stored; by rewrite Hs).
    set (st2 := set_heap (λ _, h0 ++ add_rows x s :: tl ++ [s])
                  (after_read id s st)).
    destruct (IH st2 (add_rows x s) (tl ++ [s])) as (st' & Hrun & Hh & Hlog & Hout);
      [done|done|done|].
    exists st'. split; [|split; [|split]].
    + assert ((let! l := read id in df_iadd total l) st = (Ok (), st2)) as Hstep.
      { unfold bind at 1. rewrite (read_ok _ _ s) by done.
        unfold df_iadd, bind, get_state, modify.
        rewrite Hb, Hl, Hu.
        assert (rows (heap (after_read id s st)) (fresh_frame st) = s) as ->
          by exact (rows_fresh st s []).
        f_equal. unfold st2, set_heap. f_equal. simpl. rewrite Hheap.
        rewrite <- app_assoc. simpl.
        replace (length h0) with (length h0 + 0)%nat at 1 by lia.
        by rewrite alter_app_r. }
      unfold accumulate_reads in *. cbn [for_each]. unfold bind at 1.
      rewrite Hstep. exact Hrun.
    + rewrite Hh. rewrite fmap_cons. simpl. rewrite Hstored.
      by rewrite <- app_assoc.
    + rewrite Hlog. simpl. by rewrite <- app_assoc.
    + intros id' Hni. apply not_elem_of_cons in Hni as [Hne Hni].
      rewrite (Hout _ Hni). simpl. by rewrite lookup_insert_ne.
Qed.

Lemma read_then_accumulate (first : Z) (others : list Z) st :
  store_ready (self st) →
  first ∈ _user_ids (self st) →
  Forall (λ id, id ∈ _user_ids (self st)) others →
  first ∉ others →
  ∃ total st',
    (let! total := read first in
     accumulate_reads total others >> ret total) st = (Ok total, st') ∧
    rows (heap st') total
      = foldl add_rows (stored (self st) first) (stored (self st) <$> others) ∧
    _loads (self st') !! first = Some total ∧
    store_reads st' = store_reads st ++ first :: others.
Proof.
  intros Hready Hin Hvalid Hni.
  pose proof Hready as [Hop Hnodes]. destruct (Hnodes _ Hin) as [s Hs].
  assert (stored (self st) first = s) as Hstored by (unfold stored; by rewrite Hs).
  destruct (accumulate_reads_run others (after_read first s st) (heap st) s []
              (fresh_frame st)) as (st' & Hrun & Hh & Hlog & Hout);
    [done..|].
  exists (fresh_frame st), st'. split; [|split; [|split]].
  - unfold bind at 1. rewrite (read_ok _ _ s) by done.
    unfold bind at 1. by rewrite Hrun.
  - rewrite Hh. unfold rows, fresh_frame. simpl.
    rewrite list_lookup_middle by done. simpl. rewrite restrict_open.
    by rewrite Hstored.
  - rewrite (Hout _ Hni). simpl. apply lookup_insert_eq.
  - rewrite Hlog. simpl. by rewrite <- app_assoc.
Qed.

(** X12. With the store ready and the users of NSK129-T1 among its user
    IDs, [NSK129] returns the sum of their stored series (folded with
    [+=] from the first user on) and reads every one of the 102 users from
    the store, cached or not.  The frame returned is the very frame it
    has put in the overlay for the first user, 707057500045751944, whose
    rows are now the total and no longer the series of that user: the
    first frame read is the receiver of [+=] without being copied. *)
Theorem NSK129_total_is_cached_for_first_user st :
  store_ready (self st) →
  Forall (λ id, id ∈ _user_ids (self st)) NSK129_user_ids →
  ∃ total st',
    NSK129 st = (Ok total, st') ∧
    rows (heap st') total
      = foldl add_rows (stored (self st) 707057500045751944)
          (stored (self st) <$> tail NSK129_user_ids) ∧
    _loads (self st') !! 707057500045751944 = Some total ∧
    series_of st' 707057500045751944 = rows (heap st') total ∧
    store_reads st' = store_reads st ++ NSK129_user_ids.
Proof.
  intros Hready Hvalid.
  assert (707057500045751944 ∉ tail NSK129_user_ids) as Hni
    by (apply (bool_decide_unpack _); vm_compute; exact I).
  unfold NSK129_user_ids in Hvalid. apply Forall_cons in Hvalid as [Hin Hvalid].
  destruct (read_then_accumulate 707057500045751944 (tail NSK129_user_ids) st
              Hready Hin Hvalid Hni) as (total & st' & Hrun & Hrows & Hl & Hlog).
  exists total, st'. split; [exact Hrun|]. split; [exact Hrows|].
  split; [exact Hl|]. split; [|exact Hlog].
  unfold series_of. by rewrite Hl.
Qed.
End NSK129Extras.

Section GlobalExtras.
Context {V : Type} `{Numeric V} `{NumPy}.

(** X13. The users drawn are distinct user IDs of the store: with a seed
    that [RandomState] takes, or none, the draw returns a sequence without
    repetition of [drawn_size] user IDs, and all the user IDs, each once,
    when the count is at least their number. *)
Theorem random_identifier_subset_distinct_users `{!NumPyLaws}
    (ul : UserLoads V) (num_users : Z) (seed : option Z) (w : World V) :
  seed_accepted seed →
  ∃ ids w',
    random_identifier_subset (user_ids ul) num_users seed w = (Ok ids, w') ∧
    NoDup ids ∧
    (∀ id, id ∈ ids → id ∈ _user_ids ul) ∧
    Z.of_nat (length ids) = drawn_size num_users (size (_user_ids ul)) ∧
    (Z.of_nat (size (_user_ids ul)) ≤ num_users → ids ≡ₚ user_ids ul).
Proof.
  intros Hseed.
  destruct (random_identifier_subset_run (user_ids ul) num_users seed w Hseed)
    as (seed' & w' & Hrun & _).
  pose proof (permutation_Permutation seed' (user_ids ul)) as Hperm.
  assert (NoDup (permutation seed' (user_ids ul))) as Hnd.
  { rewrite Hperm. apply NoDup_elements. }
  eexists _, w'. split; [exact Hrun|]. split; [|split; [|split]].
  - unfold slice_to. destruct (0 <=? num_users);
      (eapply sublist_NoDup; [exact Hnd | apply sublist_take]).
  - intros id Hin. apply elem_of_user_ids. rewrite <- Hperm.
    unfold slice_to in Hin. destruct (0 <=? num_users);
      apply elem_of_take in Hin as (i & Hi & _);
      by eapply list_elem_of_lookup_2.
  - rewrite slice_to_length. by rewrite (Permutation_length Hperm).
  - intros Hge. unfold slice_to.
    destruct (Z.leb_spec 0 num_users); [|lia].
    rewrite take_ge; [done|].
    rewrite (Permutation_length Hperm).
    change (length (user_ids ul)) with (size (_user_ids ul)). lia.
Qed.

(** X14. Asking for no user is an error, not a division by zero: when the
    count leaves no user (a count of 0, a negative count of at least the
    number of user IDs in magnitude, or a store without user IDs),
    [mean_experiment_load_for_user_subset] raises IndexError; the store
    is not read and no block is allocated. *)
Theorem mean_of_no_user_raises `{!NumPyLaws} (w : World V) (num_users : Z)
    (seed : option Z) loads w1 :
  tempfeeder_exp w = (Ok loads, w1) →
  seed_accepted seed →
  drawn_size num_users (size (_user_ids loads)) = 0 →
  ∃ w',
    mean_experiment_load_for_user_subset num_users seed w
    = (Raise IndexError, w') ∧
    _tempfeeder_exp w' = Some loads ∧
    w_store_reads w' = w_store_reads w1 ∧
    w_heap w' = w_heap w1.
Proof.
  intros Htf Hseed Hk.
  destruct (random_identifier_subset_run (user_ids loads) num_users seed w1 Hseed)
    as (seed' & w2 & Hsub & Hsame).
  assert (slice_to num_users (permutation seed' (user_ids loads)) = []) as Hnil.
  { apply length_zero_iff_nil.
    pose proof (slice_to_length num_users (permutation seed' (user_ids loads)))
      as Hlen.
    rewrite (Permutation_length (permutation_Permutation seed' (user_ids loads)))
      in Hlen.
    change (length (user_ids loads)) with (size (_user_ids loads)) in Hlen. lia. }
  rewrite Hnil in Hsub.
  pose proof (Hsame loads) as Hst. unfold state_of in Hst.
  injection Hst as Hh Hr.
  eexists. split.
  - unfold mean_experiment_load_for_user_subset. unfold bind at 1.
    rewrite Htf. unfold bind at 1. rewrite Hsub. unfold on_object.
    reflexivity.
  - simpl. by rewrite Hh, Hr.
Qed.


End GlobalExtras.

Section NonzeroExtras.
Context {V : Type} `{Numeric V} `{NumPy} (load_nonzero : V → bool).

Local Abbreviation test_user :=
  (λ user,
     let! loads' := tempfeeder_exp in
     let! df := on_object loads' (__getitem__ user) in
     let! w := get_state in
     ret (all_loads_nonzero load_nonzero (w_heap w) df)).

Lemma tempfeeder_exp_global (w : World V) loads w1 :
  tempfeeder_exp w = (Ok loads, w1) → _tempfeeder_exp w1 = Some loads.
Proof.
  unfold tempfeeder_exp, bind, get_state.
  destruct (_tempfeeder_exp w) as [ul|] eqn:E.
  - unfold ret. by intros [= <- <-].
  - destruct (data_without_dupes w); [|done].
    unfold modify, ret. by intros [= <- <-].
Qed.

Lemma tempfeeder_exp_again (w : World V) ul :
  _tempfeeder_exp w = Some ul → tempfeeder_exp w = (Ok ul, w).
Proof. intros E. unfold tempfeeder_exp, bind, get_state. by rewrite E. Qed.

Lemma nonzerotest_run (ids : list Z) (w : World V) ul :
  _tempfeeder_exp w = Some ul →
  frames_allocated (state_of ul w) →
  store_ready ul →
  Forall (λ id, id ∈ _user_ids ul) ids →
  ∃ w' ul',
    comprehension_if ids test_user w
    = (Ok (List.filter (nonzero_in_test_period load_nonzero (state_of ul w)) ids),
       w') ∧
    _tempfeeder_exp w' = Some ul' ∧
    grows (state_of ul w) (state_of ul' w') ∧
    Forall (λ id, is_Some (_loads ul' !! id)) ids.
Proof.
  revert w ul. induction ids as [|id ids IH]; intros w ul Hglob Hfa Hready Hvalid.
  - exists w, ul. split; [done|]. split; [done|]. split; [apply grows_refl|done].
  - apply Forall_cons in Hvalid as [Hin Hvalid].
    destruct (getitem_ok (state_of ul w) id Hfa Hready Hin)
      as (l & sta & Hget & Hrows & Hlt).
    pose proof (getitem_grows (state_of ul w) id) as Hg.
    rewrite Hget in Hg; simpl in Hg.
    pose proof (getitem_Ok_cached _ _ _ _ Hget) as Hl.
    destruct sta as [ula ha loga]; cbn [self heap store_reads] in *.
    set (wa := {| data_without_dupes := data_without_dupes w;
                  _tempfeeder_exp := Some ula;
                  np_random := np_random w;
                  w_heap := ha;
                  w_store_reads := loga |}).
    assert (test_user id w
            = (Ok (nonzero_in_test_period load_nonzero (state_of ul w) id), wa))
      as Hstep.
    { unfold bind at 1. rewrite (tempfeeder_exp_again w ul Hglob).
      unfold bind at 1. unfold on_object. rewrite Hget.
      unfold bind, get_state, ret. f_equal.
      unfold all_loads_nonzero, nonzero_in_test_period.
      cbn [w_heap heap]. by rewrite rows_df_slice, Hrows. }
    destruct (IH wa ula) as (w' & ul' & Hrun & Hglob' & Hg' & Hcached).
    { done. }
    { by eapply (grows_frames_allocated (state_of ul w)). }
    { by eapply (grows_store_ready (state_of ul w)
                   {| self := ula; heap := ha; store_reads := loga |}). }
    { destruct Hg as (_ & Hu & _). simpl in Hu. by rewrite Hu. }
    exists w', ul'. split; [|split; [done|split]].
    + cbn [comprehension_if]. unfold bind at 1. rewrite Hstep.
      unfold bind at 1. rewrite Hrun. unfold ret. f_equal. f_equal.
      cbn [List.filter].
      assert (List.filter (nonzero_in_test_period load_nonzero (state_of ula wa)) ids
              = List.filter (nonzero_in_test_period load_nonzero (state_of ul w)) ids)
        as ->; [|done].
      apply filter_ext. intros id'. unfold nonzero_in_test_period.
      by rewrite (grows_series_of (state_of ul w) (state_of ula wa) id' Hg Hfa).
    + by eapply grows_trans.
    + constructor; [|done].
      destruct Hg' as (_ & _ & _ & Hk & _). eexists. by apply (Hk id l).
Qed.

(** X16. With the singleton there and its store ready,
    [tempfeeder_exp_nonzerotest_users] returns, in the order of
    [user_ids], exactly the users none of whose readings from 2005-10-01
    00:00 on is zero, judged on the series that a subscript yields when
    the call starts (a user with no reading from then on is kept); and
    it leaves every user ID cached in the singleton. *)
Theorem nonzerotest_users_filter (w : World V) loads w1 :
  tempfeeder_exp w = (Ok loads, w1) →
  frames_allocated (state_of loads w1) →
  store_ready loads →
  ∃ w' loads',
    tempfeeder_exp_nonzerotest_users load_nonzero w
    = (Ok (List.filter
             (nonzero_in_test_period load_nonzero (state_of loads w1))
             (user_ids loads)), w') ∧
    _tempfeeder_exp w' = Some loads' ∧
    ∀ id, id ∈ _user_ids loads → is_Some (_loads loads' !! id).
Proof.
  intros Htf Hfa Hready.
  destruct (nonzerotest_run (user_ids loads) w1 loads)
    as (w' & loads' & Hrun & Hglob & _ & Hcached);
    [by eapply tempfeeder_exp_global|done|done| |].
  { apply Forall_forall. intros id Hin. by apply elem_of_user_ids. }
  exists w', loads'. split; [|split; [done|]].
  - unfold tempfeeder_exp_nonzerotest_users. unfold bind at 1.
    rewrite Htf. exact Hrun.
  - intros id Hin. rewrite Forall_forall in Hcached. apply Hcached.
    by apply elem_of_user_ids.
Qed.
End NonzeroExtras.

(** * The properties at the instance *)

Module DemoLaws.
Import Demo.

#[export] Instance toy_numpy_laws : NumPyLaws.
Proof.
  split.
  - intros seed xs. simpl.
    destruct (Z.even seed); [apply reverse_Permutation | done].
  - intros low high g Hlt. simpl.
    pose proof (Z.mod_pos_bound g (high - low)). lia.
Qed.

(** [+=] on a slice writes into the frame it was sliced from: without the
    copy, the fold of [total_load] would change the cached series. *)
Example iadd_on_slice_writes_through :
  rows (heap (df_iadd (df_slice v0 (Some t1) None) v0 cache_v).2) v0
  = [(t0, 100); (t1, 400)].
Proof. vm_compute. reflexivity. Qed.

(** Without a seed, two draws in a row need not agree. *)
Example unseeded_draws_differ :
  (random_identifier_subset [1; 2] 1 None world).1 = Ok [2] ∧
  (random_identifier_subset [1; 2] 1 None
     (random_identifier_subset [1; 2] 1 None world).2).1 = Ok [1].
Proof. vm_compute. done. Qed.
End DemoLaws.

Import Demo DemoLaws FloatDemo.

Lemma getitem_reads_once_witness :
  1 ∈ _user_ids (self cache) ∧
  _loads (self cache) !! 1 = None ∧
  store_reads (__getitem__ 1 cache).2 = store_reads cache ++ [1] ∧
  ∃ df st', __getitem__ 1 cache = (Ok df, st') ∧ rows (heap st') df = S1.
Proof.
  assert (1 ∈ _user_ids (self cache)) as Hin
    by (apply (bool_decide_unpack _); vm_compute; exact I).
  assert (_loads (self cache) !! 1 = None) as Hc by reflexivity.
  destruct (getitem_reads_once cache 1 Hin Hc) as [Hlog Hok].
  split; [exact Hin|]. split; [exact Hc|]. split; [exact Hlog|].
  destruct (Hok S1) as (df & st' & Hrun & Hrows & _); [reflexivity..|].
  exists df, st'. split; [exact Hrun | exact Hrows].
Defined.

Lemma setitem_then_read_discards_witness :
  ∃ df st2,
    read 1 cache_set = (Ok df, st2) ∧ rows (heap st2) df = S1 ∧
    __getitem__ 1 st2 = (Ok df, st2) ∧ rows (heap st2) v0 = V0.
Proof.
  destruct (setitem_then_read_discards cache_v 1 v0 S1)
    as (df & st1 & st2 & Hset & _ & Hread & Hrows & _ & Hget & _ & Hv).
  - apply (bool_decide_unpack _); vm_compute; exact I.
  - reflexivity.
  - reflexivity.
  - exists df, st2. unfold cache_set. rewrite Hset.
    split; [exact Hread|]. split; [exact Hrows|]. split; [exact Hget|].
    destruct Hv as [_ Hv]; [vm_compute; lia|]. rewrite Hv. reflexivity.
Defined.

Lemma unknown_identifier_raises_witness :
  (99 ∉ _user_ids (self cache_set)) ∧
  __setitem__ 99 v0 cache_set = (Raise KeyError, cache_set) ∧
  pop 99 cache_set = (Raise KeyError, cache_set) ∧
  __getitem__ 99 cache_set = (Raise KeyError, cache_set).
Proof.
  assert (99 ∉ _user_ids (self cache_set)) as Hni
    by (apply (bool_decide_unpack _); vm_compute; exact I).
  destruct (unknown_identifier_raises cache_set 99 v0 Hni)
    as (Hset & Hpop & _ & _ & Hget).
  split; [exact Hni|]. split; [exact Hset|]. split; [exact Hpop|].
  apply Hget. apply (bool_decide_unpack _). vm_compute. exact I.
Defined.

(** C8, as stated, fails where the overlay holds an entry under an ID that
    is no user of the store, put there through the property [loads]: the
    subscript finds the entry and returns it. *)
Lemma getitem_unknown_counterexample :
  (99 ∉ _user_ids (self cache_stray)) ∧
  __getitem__ 99 cache_stray = (Ok v0, cache_stray).
Proof.
  split.
  - apply (bool_decide_unpack _). vm_compute. exact I.
  - apply getitem_cached. reflexivity.
Qed.

Lemma total_load_sum_in_list_order_witness :
  (∃ total st',
     total_load [3; 2; 1] FloatDemo.hour FloatDemo.float_cache = (Ok total, st') ∧
     rows (heap st') total
       = [(t0, PrimFloat.add (PrimFloat.add FloatDemo.three_tenths FloatDemo.fifth)
                 FloatDemo.tenth)]) ∧
  (∃ total st', total_load [2; 1] (Some t0, Some t1) cache = (Ok total, st') ∧
                rows (heap st') total = [(t0, 12); (t1, 30)]).
Proof.
  split.
  - destruct (total_load_sum_in_list_order FloatDemo.float_cache [1; 2; 3]
                [3; 2; 1] FloatDemo.hour [t0])
      as (total & st' & Hrun & Hrows & _).
    + apply (bool_decide_unpack _). vm_compute. exact I.
    + apply (bool_decide_unpack _). vm_compute. exact I.
    + discriminate.
    + apply (bool_decide_unpack _). vm_compute. exact I.
    + apply (bool_decide_unpack _). vm_compute. exact I.
    + repeat constructor.
    + apply Permutation_rev.
    + exists total, st'. split; [exact Hrun|]. rewrite Hrows. reflexivity.
  - destruct (total_load_sum_in_list_order cache [1; 2] [2; 1]
                (Some t0, Some t1) [t0; t1])
      as (total & st' & Hrun & _ & Hrows).
    + apply (bool_decide_unpack _). vm_compute. exact I.
    + apply (bool_decide_unpack _). vm_compute. exact I.
    + discriminate.
    + apply (bool_decide_unpack _). vm_compute. exact I.
    + apply (bool_decide_unpack _). vm_compute. exact I.
    + repeat constructor.
    + apply perm_swap.
    + exists total, st'. split; [exact Hrun|].
      rewrite Hrows; [reflexivity | |]; simpl; intros; lia.
Defined.

(** C6, as stated, fails for binary64 readings: with the users 1, 2 and 3
    holding the numbers nearest to 0.1, 0.2 and 0.3 at one hour, the total
    over [1; 2; 3] is (0.1 + 0.2) + 0.3 and the total over [3; 2; 1] is
    (0.3 + 0.2) + 0.1, which differ in the last place. *)
Lemma total_load_order_counterexample :
  [3; 2; 1] ≡ₚ [1; 2; 3] ∧
  ∃ total st' total' st'',
    total_load [1; 2; 3] FloatDemo.hour FloatDemo.float_cache = (Ok total, st') ∧
    total_load [3; 2; 1] FloatDemo.hour FloatDemo.float_cache = (Ok total', st'') ∧
    rows (heap st') total = [(t0, FloatDemo.six_tenths_up)] ∧
    rows (heap st'') total' = [(t0, FloatDemo.six_tenths)] ∧
    rows (heap st') total ≠ rows (heap st'') total'.
Proof.
  split; [apply Permutation_rev|].
  eexists _, _, _, _. split; [vm_compute; reflexivity|].
  split; [vm_compute; reflexivity|].
  split; [vm_compute; reflexivity|]. split; [vm_compute; reflexivity|].
  intros E.
  apply (f_equal (λ s, PrimFloat.eqb (FloatDemo.reading s)
                         FloatDemo.six_tenths)) in E.
  vm_compute in E. discriminate.
Qed.

Lemma total_load_preserves_cached_witness :
  frames_allocated cache_set ∧
  _loads (self (total_load [1; 2] (Some t0, Some t1) cache_set).2) !! 1 = Some v0 ∧
  rows (heap (total_load [1; 2] (Some t0, Some t1) cache_set).2) v0 = V0.
Proof.
  assert (frames_allocated cache_set) as Hfa
    by (apply (bool_decide_unpack _); vm_compute; exact I).
  destruct (total_load_preserves_cached cache_set [1; 2] (Some t0, Some t1) Hfa)
    as (_ & Hkeep & _).
  destruct (Hkeep 1 v0) as [Hl Hrows]; [reflexivity|].
  split; [exact Hfa|]. split; [exact Hl|]. rewrite Hrows. reflexivity.
Defined.

(** C4, as stated, fails when more users are asked for than there are:
    with two users and a count of 3 the totals are divided by 2. *)
Lemma mean_divides_by_count_counterexample :
  ∃ means w',
    mean_experiment_load_for_user_subset 3 (Some 42) world = (Ok means, w') ∧
    rows (heap totals_run.2) <$> totals = [[(t0, 12); (t1, 30)]; [(t2, 12)]] ∧
    rows (w_heap w') <$> means = [[(t0, 6); (t1, 15)]; [(t2, 6)]] ∧
    rows (w_heap w') <$> means
      ≠ (λ t, div_rows (rows (heap totals_run.2) t) 3) <$> totals.
Proof.
  eexists _, _. split; [vm_compute; reflexivity|].
  split; [vm_compute; reflexivity|]. split; [vm_compute; reflexivity|].
  vm_compute. discriminate.
Qed.

Lemma mean_divides_by_subset_size_witness :
  drawn_size 3 (size (_user_ids loads_exp)) = 2 ∧
  ∃ means w',
    mean_experiment_load_for_user_subset 3 (Some 42) world = (Ok means, w') ∧
    rows (w_heap w') <$> means = [[(t0, 6); (t1, 15)]; [(t2, 6)]].
Proof.
  split; [reflexivity|].
  destruct (mean_divides_by_subset_size world 3 (Some 42) loads_exp world1)
    as (ids & w2 & ts & st3 & means & w' & _ & _ & Htot & Hrun & Hrows & _).
  - reflexivity.
  - apply (bool_decide_unpack _). vm_compute. exact I.
  - apply (bool_decide_unpack _). vm_compute. exact I.
  - simpl. lia.
  - reflexivity.
  - exists means, w'. split; [exact Hrun|].
    replace w' with (mean_experiment_load_for_user_subset 3 (Some 42) world).2
      by (by rewrite Hrun).
    replace means
      with (match (mean_experiment_load_for_user_subset 3 (Some 42) world).1 with
            | Ok ms => ms
            | Raise _ => []
            end) by (by rewrite Hrun).
    vm_compute. reflexivity.
Defined.

(** ** The further properties at the instance *)

Import DemoRest.

Lemma pop_returns_and_evicts_witness :
  ∃ st', pop 1 cache_set = (Ok v0, st') ∧
         _loads (self st') !! 1 = None ∧
         store_reads st' = store_reads cache_set.
Proof.
  destruct (pop_returns_and_evicts cache_set 1) as (df & st' & Hrun & _ & Hl & _ & Hlog & _).
  - apply (bool_decide_unpack _). vm_compute. exact I.
  - left. by exists v0.
  - assert (pop 1 cache_set = (Ok v0, (pop 1 cache_set).2)) as Heval
      by (vm_compute; reflexivity).
    rewrite Hrun in Heval. injection Heval as ->.
    exists st'. split; [exact Hrun|]. split.
    + rewrite Hl. apply lookup_delete_eq.
    + rewrite Hlog. vm_compute. reflexivity.
Defined.

Lemma setitem_pop_getitem_witness :
  ∃ st2 df st3,
    pop 1 cache_set = (Ok v0, st2) ∧
    __getitem__ 1 st2 = (Ok df, st3) ∧
    rows (heap st3) df = S1 ∧
    store_reads st3 = [1].
Proof.
  destruct (setitem_pop_getitem cache_v 1 v0 S1)
    as (st1 & st2 & df & st3 & Hset & Hpop & _ & _ & Hget & Hrows & Hlog).
  - apply (bool_decide_unpack _). vm_compute. exact I.
  - reflexivity.
  - reflexivity.
  - exists st2, df, st3. unfold cache_set. rewrite Hset.
    split; [exact Hpop|]. split; [exact Hget|]. split; [exact Hrows|].
    exact Hlog.
Defined.

Lemma setitem_getitem_witness :
  __getitem__ 1 cache_set = (Ok v0, cache_set) ∧
  store_reads cache_set = [].
Proof.
  destruct (setitem_getitem cache_v 1 v0) as (st1 & Hset & Hget & _ & Hlog & _).
  - apply (bool_decide_unpack _). vm_compute. exact I.
  - unfold cache_set. rewrite Hset. split; [exact Hget | exact Hlog].
Defined.

Lemma read_all_loads_every_user_witness :
  ∃ st', read_all cache_set = (Ok (), st') ∧
         store_reads st' = [2; 1] ∧
         series_of st' 1 = S1.
Proof.
  destruct (read_all_loads_every_user cache_set)
    as (st' & Hrun & Hlog & _ & Hin & _).
  - apply (bool_decide_unpack _). vm_compute. exact I.
  - exists st'. split; [exact Hrun|]. split; [exact Hlog|].
    destruct (Hin 1) as (df & Hl & _ & Hrows).
    + apply (bool_decide_unpack _). vm_compute. exact I.
    + unfold series_of. rewrite Hl, Hrows. reflexivity.
Defined.

Lemma closed_store_serves_cached_only_witness :
  ∃ st', close cache_set = (Ok (), st') ∧
         __getitem__ 1 st' = (Ok v0, st') ∧
         (read 1 st').1 = Raise ClosedFileError.
Proof.
  destruct (closed_store_serves_cached_only cache_set 1)
    as (st' & Hclose & _ & Hread & _ & Hcase).
  - apply (bool_decide_unpack _). vm_compute. exact I.
  - exists st'. split; [exact Hclose|].
    change (_loads (self cache_set) !! 1) with (Some v0) in Hcase.
    destruct Hcase as [Hget _]. split; [exact Hget | exact Hread].
Defined.

Lemma total_load_of_cached_reads_nothing_witness :
  ∃ total st',
    total_load [1; 2] (Some t0, Some t1) total_run.2 = (Ok total, st') ∧
    store_reads st' = store_reads total_run.2.
Proof.
  destruct (total_load_of_cached_reads_nothing [1; 2] (Some t0, Some t1)
              total_run.2) as (total & st' & x & Hrun & _ & Hlog & _).
  - discriminate.
  - apply (bool_decide_unpack _). vm_compute. exact I.
  - exists total, st'. split; [exact Hrun | exact Hlog].
Defined.

Lemma total_load_caches_its_users_witness :
  Forall (λ id, is_Some (_loads (self total_run.2) !! id)) [1; 2].
Proof.
  apply (total_load_caches_its_users [1; 2] (Some t0, Some t1) cache_set
           total_frame total_run.2).
  vm_compute. reflexivity.
Defined.

Lemma total_load_result_is_new_witness :
  frames_allocated cache_set ∧
  ∀ id df, _loads (self total_run.2) !! id = Some df →
           block df ≠ block total_frame.
Proof.
  assert (frames_allocated cache_set) as Hfa
    by (apply (bool_decide_unpack _); vm_compute; exact I).
  split; [exact Hfa|].
  apply (total_load_result_is_new [1; 2] (Some t0, Some t1) cache_set
           total_frame total_run.2 Hfa).
  vm_compute. reflexivity.
Defined.

Lemma total_load_unknown_user_raises_witness :
  (total_load [1; 99; 2] (Some t0, Some t1) cache).1 = Raise KeyError.
Proof.
  apply (total_load_unknown_user_raises [1; 99; 2] (Some t0, Some t1) cache 99).
  - apply (bool_decide_unpack _). vm_compute. exact I.
  - apply (bool_decide_unpack _). vm_compute. exact I.
  - apply (bool_decide_unpack _). vm_compute. exact I.
  - apply (bool_decide_unpack _). vm_compute. exact I.
Defined.

Lemma total_load_in_experiment_periods_totals_witness :
  ∃ total1 total2 st',
    total_load_in_experiment_periods [1; 2] cache = (Ok [total1; total2], st') ∧
    rows (heap st') total1 = [(t0, 12); (t1, 30)] ∧
    rows (heap st') total2 = [(t2, 12)].
Proof.
  destruct (total_load_in_experiment_periods_totals [1; 2] cache)
    as (total1 & total2 & st' & Hrun & Hr1 & Hr2 & _).
  - apply (bool_decide_unpack _). vm_compute. exact I.
  - apply (bool_decide_unpack _). vm_compute. exact I.
  - discriminate.
  - apply (bool_decide_unpack _). vm_compute. exact I.
  - exists total1, total2, st'. split; [exact Hrun|]. split.
    + rewrite Hr1. vm_compute. reflexivity.
    + rewrite Hr2. vm_compute. reflexivity.
Defined.

Lemma NSK129_total_is_cached_for_first_user_witness :
  ∃ total st',
    NSK129 nsk_cache = (Ok total, st') ∧
    series_of st' 707057500045751944 = [(t0, 102)] ∧
    length (store_reads st') = 102%nat.
Proof.
  destruct (NSK129_total_is_cached_for_first_user nsk_cache)
    as (total & st' & Hrun & Hrows & _ & Hser & Hlog).
  - apply (bool_decide_unpack _). vm_compute. exact I.
  - apply (bool_decide_unpack _). vm_compute. exact I.
  - exists total, st'. split; [exact Hrun|]. split.
    + rewrite Hser, Hrows. vm_compute. reflexivity.
    + rewrite Hlog. reflexivity.
Defined.

Lemma random_identifier_subset_distinct_users_witness :
  ∃ ids w',
    random_identifier_subset (user_ids (self cache)) 5 None world = (Ok ids, w') ∧
    NoDup ids ∧ ids ≡ₚ user_ids (self cache).
Proof.
  destruct (random_identifier_subset_distinct_users (self cache) 5 None world)
    as (ids & w' & Hrun & Hnd & _ & _ & Hall).
  - exact I.
  - exists ids, w'. split; [exact Hrun|]. split; [exact Hnd|].
    apply Hall. vm_compute. discriminate.
Defined.

Lemma mean_of_no_user_raises_witness :
  ∃ w', mean_experiment_load_for_user_subset 0 (Some 42) world
        = (Raise IndexError, w') ∧
        w_store_reads w' = [].
Proof.
  destruct (mean_of_no_user_raises world 0 (Some 42) loads_exp world1)
    as (w' & Hrun & _ & Hlog & _).
  - reflexivity.
  - simpl. lia.
  - reflexivity.
  - exists w'. split; [exact Hrun | exact Hlog].
Defined.


Lemma nonzerotest_users_filter_witness :
  ∃ w', tempfeeder_exp_nonzerotest_users Z_nonzero world0 = (Ok [1], w').
Proof.
  destruct (nonzerotest_users_filter Z_nonzero world0 loads0
              (set_tempfeeder_exp loads0 world0))
    as (w' & loads' & Hrun & _).
  - reflexivity.
  - apply (bool_decide_unpack _). vm_compute. exact I.
  - apply (bool_decide_unpack _). vm_compute. exact I.
  - exists w'. exact Hrun.
Defined.
